(** * Recommender4StudentsEnv: the assignment environment and its reward

    A shallow embedding of [samples/environment/recommender4StudentsEnv.py].

    Conventions of the embedding.
    - Python numbers (ints and floats alike) are rationals [Q]; arithmetic is
      exact.  A float division by zero raises [ZeroDivisionError], as in Python.
    - List subscripts follow Python: an index [i] with [-len <= i < 0] denotes
      position [len + i]; any other index outside [0, len) raises [IndexError].
    - The instance attributes [state], [assigned] and
      [studentsAssignedToProject] form the mutable store [Store]; a method is a
      function from the store to the store it leaves behind together with
      either a returned value or a raised exception.  The store that comes
      back with an exception is the one the object is left in.
    - [geodesic] (geopy) and the numpy pixel buffer of [imageStateGeneration]
      are external collaborators: they are fields of the class [Externals].
      The pixel buffer either comes back or fails with [ExternalError]. *)

From Stdlib Require Import QArith Qabs Lqa.
From stdpp Require Import base list strings.

Open Scope Z_scope.

(** ** Exceptions and results *)

Inductive exn : Type :=
| IndexError
| ZeroDivisionError
| ExternalError.

Inductive result (A : Type) : Type :=
| Ok (a : A)
| Raise (e : exn).
Arguments Ok {A} a.
Arguments Raise {A} e.

#[global] Instance result_ret : MRet result := λ A a, Ok a.
#[global] Instance result_bind : MBind result := λ A B k r,
  match r with
  | Ok a => k a
  | Raise e => Raise e
  end.

(** ** Python list subscripts *)

Definition py_index (len : nat) (i : Z) : option nat :=
  if (0 <=? i) && (i <? Z.of_nat len) then Some (Z.to_nat i)
  else if (- Z.of_nat len <=? i) && (i <? 0) then Some (Z.to_nat (Z.of_nat len + i))
  else None.

Definition py_get {A} (l : list A) (i : Z) : result A :=
  match py_index (length l) i with
  | Some n => match l !! n with Some x => Ok x | None => Raise IndexError end
  | None => Raise IndexError
  end.

Definition py_set {A} (l : list A) (i : Z) (x : A) : result (list A) :=
  match py_index (length l) i with
  | Some n => Ok (<[n:=x]> l)
  | None => Raise IndexError
  end.

Definition range (n : Z) : list Z := Z.of_nat <$> seq 0 (Z.to_nat n).

Definition py_in_str (x : string) (l : list string) : bool :=
  existsb (String.eqb x) l.

Definition py_in_Z (x : Z) (l : list Z) : bool :=
  existsb (Z.eqb x) l.

Definition py_len {A} (l : list A) : Z := Z.of_nat (length l).

(** [a / b] on Python floats. *)
Definition py_div (a b : Q) : result Q :=
  if Qeq_bool b 0 then Raise ZeroDivisionError else Ok (a / b)%Q.

(** ** Records *)

Definition Location : Type := Q * Q.

(** A weighted preference [{"importance": _, "value": _}]. *)
Record Pref (A : Type) : Type := mkPref {
  importance : Q;
  value : A
}.
Arguments mkPref {A} _ _.
Arguments importance {A} _.
Arguments value {A} _.

(** A weighted membership preference [{"importance": _, "list": _}]. *)
Record PrefList : Type := mkPrefList {
  list_importance : Q;
  list_ : list string
}.

Module Student.
Record t : Type := mk {
  preferredLocation : Pref Location;
  preferredRemote : Pref bool;
  preferredMinimumSalary : Pref Q;
  preferredTypeInternship : PrefList;
  age : Q;
  degree : Q;
  university : string;
  averageMark : Q;
  skills : list string;
  workExperience : list string;
  volunteerExperience : list string;
  languages : list string
}.
End Student.

Module Project.
Record t : Type := mk {
  id : Z;
  location : Location;
  remote : bool;
  minimumSalary : Q;
  type : string;
  nParticipants : Z;
  preferredAgeParticipants : Pref Q;
  preferredDegreeParticipants : Pref Q;
  preferredUniversityParticipants : PrefList;
  preferredAverageMark : Pref Q;
  preferredWorkExperienceParticipants : list (Q * string);
  preferredVolunteerExperienceParticipants : list (Q * string);
  preferredLanguagesParticipants : list (Q * string);
  preferredSkillsNeeded : list (Q * string)
}.
End Project.

(** The constructor arguments, kept as attributes and never reassigned. *)
Record Env : Type := mkEnv {
  students : list Student.t;
  projects : list Project.t;
  numberOptions : Z;
  withImage : bool
}.

(** The mutable attributes. *)
Record Store : Type := mkStore {
  state : list (list Z);
  assigned : list Z;
  studentsAssignedToProject : list (list (list Z))
}.

Class Externals : Type := {
  Image : Type;
  (** [geodesic(a, b).km] *)
  geodesic_km : Location → Location → Q;
  (** the numpy buffer built by [imageStateGeneration] from the attributes
      it reads *)
  numpy_image : Env → list (list Z) → option Image
}.

Definition ALPHA : Q := 5.
Definition GAMMA : Q := 3.
Definition EPSILON : Q := 2.

Section Model.
Context `{Externals}.

(** ** Scoring functions *)

Definition _distanceCalculation (studentLocation projectLocation : Location) : Q :=
  let distance := geodesic_km studentLocation projectLocation in
  if Qle_bool distance 50 then ((50 - distance) / 50)%Q else 0%Q.

Definition _salaryCalculation (studentSalary projectSalary : Q) : Q :=
  let difference := Qabs (studentSalary - projectSalary) in
  if Qle_bool studentSalary projectSalary then 1%Q
  else if Qle_bool difference 500 then (difference / 500)%Q else 0%Q.

Definition _subtractionCalculation (firstValue secondValue maxValue : Q) : Q :=
  let difference := Qabs (firstValue - secondValue) in
  if Qle_bool difference maxValue then difference else 0%Q.

Definition _markCalculation (studentMark projectMark : Q) : Q :=
  let difference := Qabs (studentMark - projectMark) in
  if Qle_bool studentMark projectMark then 1%Q
  else if Qle_bool difference 1 then (difference / 1)%Q else 0%Q.

(** One [if importance != 0: factors += 1; punctuation += term] block on
    the accumulator pair [(punctuation, factorsToEvaluate)]. *)
Definition criterion (imp : Q) (term : Q) (acc : Q * Q) : Q * Q :=
  if Qeq_bool imp 0 then acc else ((acc.1 + term)%Q, (acc.2 + 1)%Q).

Definition _studentPreferencesPunctuation
    (student : Student.t) (project : Project.t) : result Q :=
  let acc := (0%Q, 0%Q) in
  let acc :=
    let p := Student.preferredLocation student in
    criterion (importance p)
      (_distanceCalculation (value p) (Project.location project)
         * (importance p / 5))%Q acc in
  let acc :=
    let p := Student.preferredRemote student in
    criterion (importance p)
      (if Bool.eqb (Project.remote project) (value p)
       then (importance p / 5)%Q else 0%Q) acc in
  let acc :=
    let p := Student.preferredMinimumSalary student in
    criterion (importance p)
      (_salaryCalculation (value p) (Project.minimumSalary project)
         * (importance p / 5))%Q acc in
  let acc :=
    let p := Student.preferredTypeInternship student in
    criterion (list_importance p)
      (if py_in_str (Project.type project) (list_ p)
       then (list_importance p / 5)%Q else 0%Q) acc in
  py_div acc.1 acc.2.

(** The body of a [for entry in wanted: if entry[1] in have: punctuation +=
    (entry[0] / 5.0) / len(wanted)] loop. *)
Definition overlap (wanted : list (Q * string)) (have : list string)
    (punctuation : Q) : Q :=
  foldl (λ acc entry,
           if py_in_str entry.2 have
           then (acc + (entry.1 / 5) / inject_Z (py_len wanted))%Q
           else acc)
        punctuation wanted.

(** One [if len(wanted) != 0: factors += 1; for ...] block. *)
Definition list_criterion (wanted : list (Q * string)) (have : list string)
    (acc : Q * Q) : Q * Q :=
  if py_len wanted =? 0 then acc
  else (overlap wanted have acc.1, (acc.2 + 1)%Q).

Definition _projectPreferencesPunctuation
    (student : Student.t) (project : Project.t) : result Q :=
  let acc := (0%Q, 0%Q) in
  let acc :=
    let p := Project.preferredAgeParticipants project in
    criterion (importance p)
      ((importance p / 5)
         * _subtractionCalculation (value p) (Student.age student) 5)%Q acc in
  let acc :=
    let p := Project.preferredDegreeParticipants project in
    criterion (importance p)
      ((importance p / 5)
         * _subtractionCalculation (value p) (Student.degree student) 2)%Q acc in
  let acc :=
    let p := Project.preferredUniversityParticipants project in
    criterion (list_importance p)
      (if py_in_str (Student.university student) (list_ p)
       then (list_importance p / 5)%Q else 0%Q) acc in
  let acc :=
    let p := Project.preferredAverageMark project in
    criterion (importance p)
      ((importance p / 5)
         * _markCalculation (Student.averageMark student) (value p))%Q acc in
  let acc :=
    list_criterion (Project.preferredWorkExperienceParticipants project)
      (Student.workExperience student) acc in
  let acc :=
    list_criterion (Project.preferredVolunteerExperienceParticipants project)
      (Student.volunteerExperience student) acc in
  let acc :=
    list_criterion (Project.preferredLanguagesParticipants project)
      (Student.languages student) acc in
  py_div acc.1 acc.2.

(** ** Skill coverage *)

(** The inner [for studentId in roster: if skill in skills: ...; break]
    scan: the first roster member owning the skill, if any. *)
Fixpoint first_covering (env : Env) (skill : string) (roster : list Z)
    : result (option Z) :=
  match roster with
  | [] => Ok None
  | studentId :: rest =>
      (s ← py_get (students env) studentId;
       if py_in_str skill (Student.skills s) then Ok (Some studentId)
       else first_covering env skill rest)
  end.

(** The three accumulators of the skill loop. *)
Record SkillAcc : Type := mkSkillAcc {
  skillsPunctuation : Q;
  oldSkillsPunctuation : Q;
  maximumSkillsPunctuation : Q
}.

Definition skill_iteration (env : Env) (st : Store) (project : Project.t)
    (studentNumber option : Z) (acc : SkillAcc) (skill : Q * string)
    : result SkillAcc :=
  (let maxi := (maximumSkillsPunctuation acc + skill.1 / 5)%Q in
   buckets ← py_get (studentsAssignedToProject st) (Project.id project);
   roster ← py_get buckets option;
   found ← first_covering env skill.2 roster;
   match found with
   | None =>
       Ok (mkSkillAcc (skillsPunctuation acc) (oldSkillsPunctuation acc) maxi)
   | Some studentId =>
       Ok (mkSkillAcc
             (skillsPunctuation acc + skill.1 / 5)%Q
             (if studentId =? studentNumber then oldSkillsPunctuation acc
              else (oldSkillsPunctuation acc + skill.1 / 5)%Q)
             maxi)
   end).

Fixpoint skill_loop (env : Env) (st : Store) (project : Project.t)
    (studentNumber option : Z) (acc : SkillAcc) (skills : list (Q * string))
    : result SkillAcc :=
  match skills with
  | [] => Ok acc
  | skill :: rest =>
      (acc' ← skill_iteration env st project studentNumber option acc skill;
       skill_loop env st project studentNumber option acc' rest)
  end.

(** The skill term of the reward, [skillsPunctuation -
    oldSkillsPunctuation] after both were divided by
    [maximumSkillsPunctuation]. *)
Definition skillsTerm (env : Env) (st : Store) (project : Project.t)
    (studentNumber option : Z) : result Q :=
  (acc ← skill_loop env st project studentNumber option
           (mkSkillAcc 0 0 0) (Project.preferredSkillsNeeded project);
   cur ← py_div (skillsPunctuation acc) (maximumSkillsPunctuation acc);
   old ← py_div (oldSkillsPunctuation acc) (maximumSkillsPunctuation acc);
   Ok (cur - old)%Q).

Definition _rewardCalculation (env : Env) (st : Store)
    (studentNumber projectNumber option : Z) : result Q :=
  (student ← py_get (students env) studentNumber;
   project ← py_get (projects env) projectNumber;
   studentPreferencesPunctuation ← _studentPreferencesPunctuation student project;
   projectPreferencesPunctuation ← _projectPreferencesPunctuation student project;
   skills ← skillsTerm env st project studentNumber option;
   Ok (ALPHA * studentPreferencesPunctuation
       + GAMMA * projectPreferencesPunctuation
       + EPSILON * skills)%Q).

(** ** The state machine *)

Definition _isDone (env : Env) (st : Store) : bool :=
  forallb (λ assignations, assignations =? py_len (students env)) (assigned st).

Definition imageStateGeneration (env : Env) (st : Store) : result Image :=
  match numpy_image env (state st) with
  | Some img => Ok img
  | None => Raise ExternalError
  end.

Inductive Observation : Type :=
| Grid (g : list (list Z))
| Pixels (img : Image).

(** The [info] string, by its two shapes. *)
Inductive Info : Type :=
| NothingDone
| OptionAssigned (option studentNumber projectNumber : Z) (reward : Q).

Record Outcome : Type := mkOutcome {
  observation : Observation;
  reward : Q;
  done : bool;
  info : Info
}.

(** [self.imageStateGeneration() if self.withImage else deepcopy(self.state)] *)
Definition observe (env : Env) (st : Store) : result Observation :=
  if withImage env then
    (img ← imageStateGeneration env st; Ok (Pixels img))
  else Ok (Grid (state st)).

Definition fresh_state (nStudents : nat) (numberOptions : Z) : list (list Z) :=
  (λ _, (λ _, -1) <$> range numberOptions) <$> seq 0 nStudents.

Definition fresh_assigned (numberOptions : Z) : list Z :=
  (λ _, 0) <$> range numberOptions.

Definition fresh_rosters (nProjects : nat) (numberOptions : Z)
    : list (list (list Z)) :=
  (λ _, (λ _, []) <$> range numberOptions) <$> seq 0 nProjects.

(** The three attribute initialisations that close [__init__]. *)
Definition init (students : list Student.t) (projects : list Project.t)
    (numberOptions : Z) : Store :=
  mkStore (fresh_state (length students) numberOptions)
          (fresh_assigned numberOptions)
          (fresh_rosters (length projects) numberOptions).

Definition reset (env : Env) (st : Store) : Store * result Observation :=
  let st' :=
    mkStore (fresh_state (length (students env)) (numberOptions env))
            (fresh_assigned (numberOptions env))
            (fresh_rosters (length (projects env)) (numberOptions env)) in
  (st', observe env st').

(** [self.state[studentNumber][option]] *)
Definition read_cell (st : Store) (studentNumber option : Z) : result Z :=
  row ← py_get (state st) studentNumber; py_get row option.

(** The acceptance test of [step], with the short-circuit of [and]. *)
Definition acceptable (env : Env) (st : Store)
    (studentNumber projectNumber option : Z) : result bool :=
  (row ← py_get (state st) studentNumber;
   cell ← py_get row option;
   if negb (cell =? -1) then Ok false else
   buckets ← py_get (studentsAssignedToProject st) projectNumber;
   roster ← py_get buckets option;
   project ← py_get (projects env) projectNumber;
   if negb (py_len roster <? Project.nParticipants project) then Ok false else
   Ok (negb (py_in_Z (Project.id project) row))).

(** The body of the accepting branch.  Every exception leaves the store
    as the assignments executed so far have made it. *)
Definition assign (env : Env) (st : Store)
    (studentNumber projectNumber option : Z) : Store * result Outcome :=
  match
    (project ← py_get (projects env) projectNumber;
     row ← py_get (state st) studentNumber;
     row' ← py_set row option (Project.id project);
     py_set (state st) studentNumber row')
  with
  | Raise e => (st, Raise e)
  | Ok grid =>
      let st1 := mkStore grid (assigned st) (studentsAssignedToProject st) in
      match _rewardCalculation env st1 studentNumber projectNumber option with
      | Raise e => (st1, Raise e)
      | Ok reward =>
          match
            (n ← py_get (assigned st1) option;
             py_set (assigned st1) option (n + 1))
          with
          | Raise e => (st1, Raise e)
          | Ok counters =>
              let st2 := mkStore grid counters (studentsAssignedToProject st1) in
              match
                (buckets ← py_get (studentsAssignedToProject st2) projectNumber;
                 roster ← py_get buckets option;
                 buckets' ← py_set buckets option (roster ++ [studentNumber]);
                 py_set (studentsAssignedToProject st2) projectNumber buckets')
              with
              | Raise e => (st2, Raise e)
              | Ok rosters =>
                  let st3 := mkStore grid counters rosters in
                  (st3,
                   Ok (mkOutcome (Grid (state st3)) reward (_isDone env st3)
                         (OptionAssigned option studentNumber projectNumber reward)))
              end
          end
      end
  end.

(** The final [return] of [step], reached when no slot was written. *)
Definition nothing_done (env : Env) (st : Store) : Store * result Outcome :=
  (st, (obs ← observe env st;
        Ok (mkOutcome obs 0 (_isDone env st) NothingDone))).

(** The [for option in range(0, numberOptions)] loop of [step]. *)
Fixpoint step_loop (env : Env) (st : Store) (studentNumber projectNumber : Z)
    (options : list Z) : Store * result Outcome :=
  match options with
  | [] => nothing_done env st
  | option :: rest =>
      match acceptable env st studentNumber projectNumber option with
      | Raise e => (st, Raise e)
      | Ok true => assign env st studentNumber projectNumber option
      | Ok false =>
          match read_cell st studentNumber option with
          | Raise e => (st, Raise e)
          | Ok cell =>
              if cell =? -1 then nothing_done env st
              else step_loop env st studentNumber projectNumber rest
          end
      end
  end.

Definition step (env : Env) (st : Store) (action : Z * Z)
    : Store * result Outcome :=
  step_loop env st action.1 action.2 (range (numberOptions env)).

End Model.

(** ** Runs of the environment and the quantities the claims speak of *)

Section Runs.
Context `{Externals}.

(** The store a freshly constructed instance holds. *)
Definition construct (env : Env) : Store :=
  init (students env) (projects env) (numberOptions env).

(** A sequence of [step] calls, each applied to the store the previous
    one left, whether that call returned or raised. *)
Fixpoint run (env : Env) (st : Store) (actions : list (Z * Z)) : Store :=
  match actions with
  | [] => st
  | action :: rest => run env (step env st action).1 rest
  end.

(** Stores the object can be in after construction and any calls of
    [step] and [reset]; a call that raises still leaves a store. *)
Inductive reachable (env : Env) : Store → Prop :=
| reachable_construct : reachable env (construct env)
| reachable_reset st : reachable env st → reachable env (reset env st).1
| reachable_step st action :
    reachable env st → reachable env (step env st action).1.

(** Stores reached when every [step] call so far has returned. *)
Inductive reachable_returning (env : Env) : Store → Prop :=
| returning_construct : reachable_returning env (construct env)
| returning_reset st :
    reachable_returning env st → reachable_returning env (reset env st).1
| returning_step st action st' out :
    reachable_returning env st →
    step env st action = (st', Ok out) →
    reachable_returning env st'.

Definition nOptions (env : Env) : nat := Z.to_nat (numberOptions env).

(** Every attribute has the dimensions [__init__] gave it. *)
Record well_shaped (env : Env) (st : Store) : Prop := {
  shape_state : length (state st) = length (students env);
  shape_rows : Forall (λ row, length row = nOptions env) (state st);
  shape_assigned : length (assigned st) = nOptions env;
  shape_rosters : length (studentsAssignedToProject st) = length (projects env);
  shape_buckets :
    Forall (λ buckets, length buckets = nOptions env)
           (studentsAssignedToProject st)
}.

(** Is slot [o] of a grid row assigned (not the [-1] sentinel)? *)
Definition slot_filled (o : nat) (row : list Z) : bool :=
  match row !! o with
  | Some cell => negb (cell =? -1)
  | None => false
  end.

(** Number of agents whose cell for option [o] is assigned. *)
Definition filled (grid : list (list Z)) (o : nat) : nat :=
  sum_list_with (λ row, if slot_filled o row then 1%nat else 0%nat) grid.

(** Total length of the rosters of option [o] over all resources. *)
Definition enrolled (rosters : list (list (list Z))) (o : nat) : nat :=
  sum_list_with (λ buckets, length (default [] (buckets !! o))) rosters.

(** The three counts of option [o] agree. *)
Definition counts_agree (st : Store) (o : nat) : Prop :=
  assigned st !! o = Some (Z.of_nat (filled (state st) o))
  ∧ filled (state st) o = enrolled (studentsAssignedToProject st) o.

(** [o] is the first unassigned slot of [row]. *)
Definition first_open (row : list Z) (o : nat) : Prop :=
  row !! o = Some (-1)
  ∧ ∀ o' cell, (o' < o)%nat → row !! o' = Some cell → cell ≠ -1.

(** A step was accepted: its outcome reports a written slot. *)
Definition accepted (out : Outcome) : Prop := info out ≠ NothingDone.

(** The action's two indices denote positions [n] and [m], and [o] is
    the first open slot of the agent's row: the one slot at which [step]
    evaluates its acceptance test for [roster] and [project]. *)
Record FirstOpenSlot (env : Env) (st : Store) (action : Z * Z) (o n m : nat)
    (row : list Z) (buckets : list (list Z)) (roster : list Z)
    (project : Project.t) : Prop := {
  fos_agent : py_index (length (state st)) action.1 = Some n;
  fos_row : state st !! n = Some row;
  fos_open : first_open row o;
  fos_resource : py_index (length (studentsAssignedToProject st)) action.2 = Some m;
  fos_buckets : studentsAssignedToProject st !! m = Some buckets;
  fos_roster : buckets !! o = Some roster;
  fos_project : py_get (projects env) action.2 = Ok project
}.

(** What [step] has checked when it enters its accepting branch at
    option [o]: [n] and [m] are the positions the two action indices
    denote, [row] the agent's grid row, [roster] the bucket's roster. *)
Record Acceptance (env : Env) (st : Store) (action : Z * Z) (o n m : nat)
    (row : list Z) (buckets : list (list Z)) (roster : list Z)
    (project : Project.t) : Prop := {
  acc_option : (o < nOptions env)%nat;
  acc_agent : py_index (length (state st)) action.1 = Some n;
  acc_row : state st !! n = Some row;
  acc_open : first_open row o;
  acc_resource : py_index (length (studentsAssignedToProject st)) action.2 = Some m;
  acc_buckets : studentsAssignedToProject st !! m = Some buckets;
  acc_roster : buckets !! o = Some roster;
  acc_project : py_get (projects env) action.2 = Ok project;
  acc_room : py_len roster < Project.nParticipants project;
  acc_fresh : py_in_Z (Project.id project) row = false
}.

(** The store after line 250 alone. *)
Definition slot_written (st : Store) (n o : nat) (row : list Z) (v : Z) : Store :=
  mkStore (<[n := <[o := v]> row]> (state st)) (assigned st)
          (studentsAssignedToProject st).

(** The store after the whole accepting branch. *)
Definition slot_committed (st : Store) (action : Z * Z) (n o m : nat)
    (row : list Z) (v counter : Z) (buckets : list (list Z)) (roster : list Z)
    : Store :=
  mkStore (<[n := <[o := v]> row]> (state st))
          (<[o := counter + 1]> (assigned st))
          (<[m := <[o := roster ++ [action.1]]> buckets]>
             (studentsAssignedToProject st)).

(** No roster is longer than its resource's [nParticipants]. *)
Definition within_capacity (env : Env) (st : Store) : Prop :=
  ∀ m project buckets o roster,
    projects env !! m = Some project →
    studentsAssignedToProject st !! m = Some buckets →
    buckets !! o = Some roster →
    py_len roster ≤ Project.nParticipants project.

(** Every member of a roster of option [o] has its own cell for option
    [o] assigned. *)
Definition rosters_sound (st : Store) : Prop :=
  ∀ m buckets o roster studentId,
    studentsAssignedToProject st !! m = Some buckets →
    buckets !! o = Some roster →
    studentId ∈ roster →
    ∃ cell, read_cell st studentId (Z.of_nat o) = Ok cell ∧ cell ≠ -1.

(** The ways a [step] call can end, with the store it leaves. *)
Inductive StepResult (env : Env) (st : Store) (action : Z * Z)
    : Store → result Outcome → Prop :=
| step_index_error :
    StepResult env st action st (Raise IndexError)
| step_nothing_done :
    StepResult env st action st (nothing_done env st).2
| step_reward_raises o n m row buckets roster project e :
    Acceptance env st action o n m row buckets roster project →
    _rewardCalculation env (slot_written st n o row (Project.id project))
      action.1 action.2 (Z.of_nat o) = Raise e →
    StepResult env st action
      (slot_written st n o row (Project.id project)) (Raise e)
| step_counter_missing o n m row buckets roster project :
    Acceptance env st action o n m row buckets roster project →
    assigned st !! o = None →
    StepResult env st action
      (slot_written st n o row (Project.id project)) (Raise IndexError)
| step_assigned o n m row buckets roster project reward counter :
    Acceptance env st action o n m row buckets roster project →
    _rewardCalculation env (slot_written st n o row (Project.id project))
      action.1 action.2 (Z.of_nat o) = Ok reward →
    assigned st !! o = Some counter →
    StepResult env st action
      (slot_committed st action n o m row (Project.id project) counter
         buckets roster)
      (Ok (mkOutcome
             (Grid (<[n := <[o := Project.id project]> row]> (state st)))
             reward
             (_isDone env
                (slot_committed st action n o m row (Project.id project)
                   counter buckets roster))
             (OptionAssigned (Z.of_nat o) action.1 action.2 reward))).

End Runs.

(** ** Sample data *)

Definition sample_externals : Externals :=
  {| Image := unit; geodesic_km := λ _ _, 0%Q; numpy_image := λ _ _, None |}.

(** A student whose only active preference is remote work (importance 5). *)
Definition sample_student (skills : list string) : Student.t :=
  Student.mk (mkPref 0 (0, 0)%Q) (mkPref 5 true) (mkPref 0 0%Q) (mkPrefList 0 [])
    25 1 "upc" 7 skills [] [] [].

(** A student with no active preference at all. *)
Definition indifferent_student : Student.t :=
  Student.mk (mkPref 0 (0, 0)%Q) (mkPref 0 true) (mkPref 0 0%Q) (mkPrefList 0 [])
    25 1 "upc" 7 ["python"] [] [] [].

(** A remote project whose only active preference is the university list
    (importance 5). *)
Definition sample_project (skillsNeeded : list (Q * string)) : Project.t :=
  Project.mk 0 (0, 0)%Q true 0 "research" 1
    (mkPref 0 0%Q) (mkPref 0 0%Q) (mkPrefList 5 ["upc"]) (mkPref 0 0%Q)
    [] [] [] skillsNeeded.

(** A remote project whose only active preference is the age of its
    participants: 20 years, importance 5. *)
Definition age_project : Project.t :=
  Project.mk 0 (0, 0)%Q true 0 "research" 1
    (mkPref 5 20%Q) (mkPref 0 0%Q) (mkPrefList 0 []) (mkPref 0 0%Q)
    [] [] [] [(5%Q, "python")].

Definition skill_env : Env :=
  mkEnv [sample_student ["python"]] [sample_project [(5%Q, "python")]] 1 false.

Definition age_env : Env :=
  mkEnv [sample_student ["python"]] [age_project] 1 false.

Definition no_skills_env : Env :=
  mkEnv [sample_student ["python"]] [sample_project []] 1 false.

Definition indifferent_env : Env :=
  mkEnv [indifferent_student] [sample_project [(5%Q, "python")]] 1 false.

(** Two students competing for the single place of one project, one
    option each. *)
Definition pair_env : Env :=
  mkEnv [sample_student ["python"]; sample_student ["python"]]
        [sample_project [(5%Q, "python")]] 1 false.

(** [pair_env] after the first student took the place. *)
Definition pair_taken : Store :=
  (step (H := sample_externals) pair_env (construct pair_env) (0, 0)).1.

(** One student with two options and two projects, the second with id 1
    and two places. *)
Definition two_option_env : Env :=
  mkEnv [sample_student ["python"]]
        [sample_project [(5%Q, "python")];
         Project.mk 1 (0, 0)%Q true 0 "research" 2
           (mkPref 0 0%Q) (mkPref 0 0%Q) (mkPrefList 5 ["upc"]) (mkPref 0 0%Q)
           [] [] [] [(5%Q, "python")]]
        2 false.

(** [two_option_env] after the student took the first project as first
    option. *)
Definition two_option_taken : Store :=
  (step (H := sample_externals) two_option_env (construct two_option_env) (0, 0)).1.

(** ** Row and roster discipline *)

(** Assigned slots of a row form a prefix: no slot is assigned while an
    earlier one is open. *)
Definition filled_in_order (row : list Z) : Prop :=
  ∀ o o' cell,
    row !! o = Some cell → cell ≠ -1 → (o' < o)%nat →
    ∃ cell', row !! o' = Some cell' ∧ cell' ≠ -1.

(** No resource id occupies two slots of a row. *)
Definition no_resource_twice (row : list Z) : Prop :=
  ∀ o o' cell,
    row !! o = Some cell → row !! o' = Some cell → cell ≠ -1 → o = o'.

(** Every member of the roster of bucket [(m, o)] has the id of project
    [m] in its own cell for option [o]. *)
Definition rosters_hold_resource (env : Env) (st : Store) : Prop :=
  ∀ m project buckets o roster studentId,
    projects env !! m = Some project →
    studentsAssignedToProject st !! m = Some buckets →
    buckets !! o = Some roster →
    studentId ∈ roster →
    read_cell st studentId (Z.of_nat o) = Ok (Project.id project)
    ∧ Project.id project ≠ -1.

(** ** Aggregate scores *)

Section Scores.
Context `{Externals}.

(** Lines 194-197: the preference total of one student over the options. *)
Fixpoint student_options_total (env : Env) (st : Store) (student : Student.t)
    (studentNumber : Z) (options : list Z) (totalStudentPunctuation : Q)
    : result Q :=
  match options with
  | [] => Ok totalStudentPunctuation
  | option :: rest =>
      row ← py_get (state st) studentNumber;
      cell ← py_get row option;
      project ← py_get (projects env) cell;
      studentPreferencesPunctuation ← _studentPreferencesPunctuation student project;
      student_options_total env st student studentNumber rest
        (totalStudentPunctuation + studentPreferencesPunctuation)%Q
  end.

(** Lines 191-199: the loop over the students. *)
Fixpoint students_total (env : Env) (st : Store) (studentNumbers : list Z)
    (totalStudentsPunctuation : Q) : result Q :=
  match studentNumbers with
  | [] => Ok totalStudentsPunctuation
  | studentNumber :: rest =>
      student ← py_get (students env) studentNumber;
      totalStudentPunctuation ←
        student_options_total env st student studentNumber
          (range (numberOptions env)) 0;
      mean ← py_div totalStudentPunctuation (inject_Z (numberOptions env));
      students_total env st rest (totalStudentsPunctuation + mean)%Q
  end.

(** Lines 209-211: the project-side preference of every roster member. *)
Fixpoint roster_preferences (env : Env) (project : Project.t) (roster : list Z)
    (totalProjectPunctuation : Q) : result Q :=
  match roster with
  | [] => Ok totalProjectPunctuation
  | studentId :: rest =>
      student ← py_get (students env) studentId;
      punctuation ← _projectPreferencesPunctuation student project;
      roster_preferences env project rest (totalProjectPunctuation + punctuation)%Q
  end.

(** Lines 215-220: the accumulators [(skillsPunctuation,
    maximumSkillsPunctuation)] over the needed skills. *)
Fixpoint coverage_loop (env : Env) (st : Store) (project : Project.t)
    (option : Z) (acc : Q * Q) (skills : list (Q * string)) : result (Q * Q) :=
  match skills with
  | [] => Ok acc
  | skill :: rest =>
      let maxi := (acc.2 + skill.1 / 5)%Q in
      buckets ← py_get (studentsAssignedToProject st) (Project.id project);
      roster ← py_get buckets option;
      found ← first_covering env skill.2 roster;
      coverage_loop env st project option
        (match found with
         | Some _ => (acc.1 + skill.1 / 5)%Q
         | None => acc.1
         end, maxi) rest
  end.

(** Lines 207-221: the loop over the options of one project, on the pair
    [(totalProjectPunctuation, totalProjectSkillsPunctuation)]. *)
Fixpoint project_options_total (env : Env) (st : Store) (project : Project.t)
    (projectNumber : Z) (options : list Z) (acc : Q * Q) : result (Q * Q) :=
  match options with
  | [] => Ok acc
  | option :: rest =>
      buckets ← py_get (studentsAssignedToProject st) projectNumber;
      roster ← py_get buckets option;
      totalProjectPunctuation ← roster_preferences env project roster acc.1;
      coverage ← coverage_loop env st project option (0%Q, 0%Q)
                   (Project.preferredSkillsNeeded project);
      covered ← py_div coverage.1 coverage.2;
      project_options_total env st project projectNumber rest
        (totalProjectPunctuation, (acc.2 + covered)%Q)
  end.

(** Lines 203-224: the loop over the projects, on the pair
    [(totalProjectsPunctuation, totalSkillsPunctuation)]. *)
Fixpoint projects_total (env : Env) (st : Store) (projectNumbers : list Z)
    (acc : Q * Q) : result (Q * Q) :=
  match projectNumbers with
  | [] => Ok acc
  | projectNumber :: rest =>
      project ← py_get (projects env) projectNumber;
      totals ← project_options_total env st project projectNumber
                 (range (numberOptions env)) (0%Q, 0%Q);
      preference ← py_div totals.1 (inject_Z (numberOptions env));
      coverage ← py_div totals.2 (inject_Z (numberOptions env));
      projects_total env st rest ((acc.1 + preference)%Q, (acc.2 + coverage)%Q)
  end.

Definition stepScores (env : Env) (st : Store) : result (Q * Q * Q) :=
  totalStudentsPunctuation ←
    students_total env st (range (py_len (students env))) 0;
  totals ← projects_total env st (range (py_len (projects env))) (0%Q, 0%Q);
  studentsScore ←
    py_div totalStudentsPunctuation (inject_Z (py_len (students env)));
  projectsScore ← py_div totals.1 (inject_Z (py_len (projects env)));
  skillsScore ← py_div totals.2 (inject_Z (py_len (projects env)));
  Ok (studentsScore, projectsScore, skillsScore).

(** The grid in which every unassigned cell holds the index of the last
    project. *)
Definition unassigned_as_last (env : Env) (st : Store) : Store :=
  mkStore
    (fmap (M := list)
       (fmap (M := list)
          (λ cell, if cell =? -1 then py_len (projects env) - 1 else cell))
       (state st))
    (assigned st) (studentsAssignedToProject st).

End Scores.


(** [two_option_env] after the student also took the second project as
    second option: every slot is filled. *)
Definition two_option_full : Store :=
  (step (H := sample_externals) two_option_env two_option_taken (0, 1)).1.

(** An environment without options. *)
Definition no_option_env : Env :=
  mkEnv [sample_student ["python"]] [sample_project [(5%Q, "python")]] 0 false.


(** A project with no active preference at all. *)
Definition indifferent_project : Project.t :=
  Project.mk 0 (0, 0)%Q true 0 "research" 1
    (mkPref 0 0%Q) (mkPref 0 0%Q) (mkPrefList 0 []) (mkPref 0 0%Q)
    [] [] [] [(5%Q, "python")].


(** * Properties *)

Section Subscripts.
Context {A : Type}.
Implicit Types (l : list A) (i : Z) (n : nat).

Lemma py_index_lt len i n : py_index len i = Some n → (n < len)%nat.
Proof.
  unfold py_index. intros Hi.
  repeat case_match; simplify_eq; lia.
Qed.

Lemma py_index_nat len n :
  py_index len (Z.of_nat n) = if decide (n < len)%nat then Some n else None.
Proof.
  unfold py_index. case_decide.
  - replace (_ && _) with true by (symmetry; apply andb_true_intro; lia).
    by rewrite Nat2Z.id.
  - replace (_ && (Z.of_nat n <? _)) with false.
    + replace (_ && _) with false; [done|].
      symmetry. apply andb_false_iff. right. lia.
    + symmetry. apply andb_false_iff. right. lia.
Qed.

Lemma py_index_None len i :
  py_index len i = None ↔ i < - Z.of_nat len ∨ Z.of_nat len ≤ i.
Proof.
  unfold py_index. split.
  - intros Hi. repeat case_match; simplify_eq; lia.
  - intros Hi. repeat case_match; try done; lia.
Qed.

Lemma py_get_Ok l i x :
  py_get l i = Ok x ↔ ∃ n, py_index (length l) i = Some n ∧ l !! n = Some x.
Proof.
  unfold py_get. split.
  - intros Hg. repeat case_match; simplify_eq. eauto.
  - intros (n & -> & ->). done.
Qed.

Lemma py_get_Raise l i e : py_get l i = Raise e → e = IndexError.
Proof. unfold py_get. intros Hg. repeat case_match; by simplify_eq. Qed.

Lemma py_get_unindexable l i :
  py_index (length l) i = None → py_get l i = Raise IndexError.
Proof. unfold py_get. by intros ->. Qed.

Lemma py_get_nat l n :
  py_get l (Z.of_nat n) =
    match l !! n with Some x => Ok x | None => Raise IndexError end.
Proof.
  unfold py_get. rewrite py_index_nat. case_decide; [done|].
  by rewrite lookup_ge_None_2 by lia.
Qed.

Lemma py_set_Ok l i x l' :
  py_set l i x = Ok l' ↔ ∃ n, py_index (length l) i = Some n ∧ l' = <[n:=x]> l.
Proof.
  unfold py_set. split.
  - intros Hs. case_match; simplify_eq. eauto.
  - intros (n & -> & ->). done.
Qed.

Lemma py_set_nat l n x :
  py_set l (Z.of_nat n) x =
    if decide (n < length l)%nat then Ok (<[n:=x]> l) else Raise IndexError.
Proof. unfold py_set. rewrite py_index_nat. by case_decide. Qed.

End Subscripts.

Section StepAnalysis.
Context `{Externals}.
Implicit Types (env : Env) (st : Store) (o n m : nat).

Lemma read_cell_Ok st s o cell :
  read_cell st s (Z.of_nat o) = Ok cell ↔
  ∃ n row, py_index (length (state st)) s = Some n
           ∧ state st !! n = Some row ∧ row !! o = Some cell.
Proof.
  unfold read_cell. split.
  - destruct (py_get (state st) s) as [row|] eqn:Hrow; [|done]. cbn.
    apply py_get_Ok in Hrow as (n & Hn & Hrow).
    rewrite py_get_nat. destruct (row !! o) eqn:Ho; [|done].
    intros [= ->]. eauto.
  - intros (n & row & Hn & Hrow & Ho).
    assert (py_get (state st) s = Ok row) as -> by (apply py_get_Ok; eauto).
    cbn. by rewrite py_get_nat, Ho.
Qed.

Lemma read_cell_Raise st s option e :
  read_cell st s option = Raise e → e = IndexError.
Proof.
  unfold read_cell.
  destruct (py_get (state st) s) eqn:Hrow; cbn.
  - apply py_get_Raise.
  - intros [= <-]. by apply py_get_Raise in Hrow.
Qed.

Lemma acceptable_Raise env st s p option e :
  acceptable env st s p option = Raise e → e = IndexError.
Proof.
  unfold acceptable.
  repeat (match goal with
          | |- context [py_get ?l ?i] =>
              let E := fresh "E" in
              destruct (py_get l i) eqn:E; cbn;
              [| apply py_get_Raise in E; by intros [= <-]]
          | |- context [if ?b then _ else _] => destruct b; cbn
          end; try done).
Qed.

(** While the cell is assigned the acceptance test is false. *)
Lemma acceptable_filled env st s p o cell :
  read_cell st s (Z.of_nat o) = Ok cell → cell ≠ -1 →
  acceptable env st s p (Z.of_nat o) = Ok false.
Proof.
  unfold read_cell, acceptable. intros Hcell Hne.
  destruct (py_get (state st) s) as [row|]; [|done]. cbn in *.
  rewrite Hcell. cbn.
  by replace (cell =? -1) with false by (symmetry; apply Z.eqb_neq; done).
Qed.

(** What a passed acceptance test has established. *)
Lemma acceptable_true env st s p o :
  acceptable env st s p (Z.of_nat o) = Ok true →
  ∃ n m row buckets roster project,
    py_index (length (state st)) s = Some n
    ∧ state st !! n = Some row
    ∧ row !! o = Some (-1)
    ∧ py_index (length (studentsAssignedToProject st)) p = Some m
    ∧ studentsAssignedToProject st !! m = Some buckets
    ∧ buckets !! o = Some roster
    ∧ py_get (projects env) p = Ok project
    ∧ py_len roster < Project.nParticipants project
    ∧ py_in_Z (Project.id project) row = false.
Proof.
  unfold acceptable.
  destruct (py_get (state st) s) as [row|] eqn:Hrow; [|done]. cbn.
  rewrite py_get_nat. destruct (row !! o) as [cell|] eqn:Ho; [|done]. cbn.
  destruct (cell =? -1) eqn:Hcell; [|done]. cbn.
  apply Z.eqb_eq in Hcell as ->.
  destruct (py_get (studentsAssignedToProject st) p) as [buckets|] eqn:Hb; [|done].
  cbn. rewrite py_get_nat.
  destruct (buckets !! o) as [roster|] eqn:Hr; [|done]. cbn.
  destruct (py_get (projects env) p) as [project|] eqn:Hp; [|done]. cbn.
  destruct (py_len roster <? Project.nParticipants project) eqn:Hroom; [|done].
  cbn. intros [= Hfresh].
  apply py_get_Ok in Hrow as (n & Hn & Hrow).
  apply py_get_Ok in Hb as (m & Hm & Hb).
  exists n, m, row, buckets, roster, project.
  repeat split; try done.
  - by apply Z.ltb_lt.
  - by apply negb_true_iff.
Qed.

(** The accepting branch, once the acceptance test has passed. *)
Lemma assign_unfold env st action o n m row buckets roster project :
  Acceptance env st action o n m row buckets roster project →
  assign env st action.1 action.2 (Z.of_nat o) =
    let v := Project.id project in
    let st1 := slot_written st n o row v in
    match _rewardCalculation env st1 action.1 action.2 (Z.of_nat o) with
    | Raise e => (st1, Raise e)
    | Ok reward =>
        match assigned st !! o with
        | None => (st1, Raise IndexError)
        | Some counter =>
            let st3 := slot_committed st action n o m row v counter buckets roster in
            (st3, Ok (mkOutcome (Grid (state st3)) reward (_isDone env st3)
                        (OptionAssigned (Z.of_nat o) action.1 action.2 reward)))
        end
    end.
Proof.
  intros [Ho Hn Hrow [Hopen _] Hm Hb Hr Hp Hroom Hfresh].
  unfold assign. rewrite Hp. cbn.
  assert (py_get (state st) action.1 = Ok row) as -> by (apply py_get_Ok; eauto).
  cbn. rewrite py_set_nat.
  rewrite decide_True by (by eapply lookup_lt_Some).
  cbn. unfold py_set at 1. rewrite Hn.
  fold (slot_written st n o row (Project.id project)).
  destruct (_rewardCalculation _ _ _ _ _) as [reward|e]; [|done].
  cbn. rewrite py_get_nat.
  destruct (assigned st !! o) as [counter|] eqn:Hc; [|done]. cbn.
  rewrite py_set_nat. rewrite decide_True by (by eapply lookup_lt_Some).
  assert (py_get (studentsAssignedToProject st) action.2 = Ok buckets) as ->
    by (apply py_get_Ok; eauto).
  cbn. rewrite py_get_nat, Hr. cbn.
  rewrite py_set_nat. rewrite decide_True by (by eapply lookup_lt_Some).
  cbn. unfold py_set. rewrite Hm. done.
Qed.

End StepAnalysis.

Section StepCases.
Context `{Externals}.
Implicit Types (env : Env) (st : Store) (o n m : nat).

(** The loop of [step] from option [k] on, when the options before [k]
    have been passed over because their cells were assigned. *)
Lemma step_loop_cases env st action k len st' res :
  (k + len = nOptions env)%nat →
  (∀ o' cell, (o' < k)%nat →
     read_cell st action.1 (Z.of_nat o') = Ok cell → cell ≠ -1) →
  step_loop env st action.1 action.2 (Z.of_nat <$> seq k len) = (st', res) →
  (st' = st ∧ res = Raise IndexError)
  ∨ (st', res) = nothing_done env st
  ∨ ∃ o n m row buckets roster project,
      Acceptance env st action o n m row buckets roster project
      ∧ (st', res) = assign env st action.1 action.2 (Z.of_nat o).
Proof.
  revert k. induction len as [|len IH]; intros k Hk Hpassed; cbn.
  { intros <-. by right; left. }
  destruct (acceptable env st action.1 action.2 (Z.of_nat k)) as [[]|e] eqn:Hacc.
  - intros <-. right; right.
    apply acceptable_true in Hacc
      as (n & m & row & buckets & roster & project
          & Hn & Hrow & Ho & Hm & Hb & Hr & Hp & Hroom & Hfresh).
    exists k, n, m, row, buckets, roster, project. split; [|done].
    split; try done; [lia|].
    split; [done|]. intros o' cell Ho' Hcell.
    apply (Hpassed o' cell Ho'). apply read_cell_Ok. eauto.
  - destruct (read_cell st action.1 (Z.of_nat k)) as [cell|e] eqn:Hcell.
    + destruct (cell =? -1) eqn:Hopen.
      * intros <-. by right; left.
      * apply Z.eqb_neq in Hopen. intros Hloop.
        apply (IH (S k)); [lia| |done].
        intros o' cell' Ho' Hcell'.
        destruct (decide (o' = k)) as [->|]; [congruence|].
        apply (Hpassed o' cell'); [lia|done].
    + apply read_cell_Raise in Hcell as ->. intros [= <- <-]. by left.
  - apply acceptable_Raise in Hacc as ->. intros [= <- <-]. by left.
Qed.

(** The three ways a [step] call can end. *)
Lemma step_cases env st action st' res :
  step env st action = (st', res) →
  (st' = st ∧ res = Raise IndexError)
  ∨ (st', res) = nothing_done env st
  ∨ ∃ o n m row buckets roster project,
      Acceptance env st action o n m row buckets roster project
      ∧ (st', res) = assign env st action.1 action.2 (Z.of_nat o).
Proof.
  unfold step, range. apply step_loop_cases.
  - unfold nOptions. lia.
  - intros o' cell Ho'. lia.
Qed.

(** The loop stops at the first open slot [stop] when the acceptance test
    fails there, and at the end of the row when no slot is open
    ([stop] beyond the last option). *)
Lemma step_loop_rejects env st s p k len stop :
  (k ≤ stop)%nat →
  (∀ o', (k ≤ o' < k + len)%nat → (o' < stop)%nat →
     ∃ cell, read_cell st s (Z.of_nat o') = Ok cell ∧ cell ≠ -1) →
  ((stop < k + len)%nat →
     read_cell st s (Z.of_nat stop) = Ok (-1)
     ∧ acceptable env st s p (Z.of_nat stop) = Ok false) →
  step_loop env st s p (Z.of_nat <$> seq k len) = nothing_done env st.
Proof.
  revert k. induction len as [|len IH]; intros k Hk Hfilled Hstop; cbn; [done|].
  destruct (decide (k = stop)) as [->|Hne].
  - destruct Hstop as [Hcell Hacc]; [lia|]. by rewrite Hacc, Hcell.
  - destruct (Hfilled k) as (cell & Hcell & Hcellne); [lia..|].
    rewrite (acceptable_filled _ _ _ _ _ _ Hcell Hcellne), Hcell.
    replace (cell =? -1) with false by (symmetry; by apply Z.eqb_neq).
    apply IH; [lia| |].
    + intros o' Ho' Hlt. apply Hfilled; lia.
    + intros Hlt. apply Hstop. lia.
Qed.

End StepCases.

Section StepSpec.
Context `{Externals}.
Implicit Types (env : Env) (st : Store) (o n m : nat).

Lemma step_spec env st action :
  StepResult env st action (step env st action).1 (step env st action).2.
Proof.
  destruct (step env st action) as [st' res] eqn:Hstep. cbn.
  apply step_cases in Hstep
    as [[-> ->]|[Hnd|(o & n & m & row & buckets & roster & project & Hacc & Hassign)]].
  - constructor.
  - injection Hnd as -> ->. constructor.
  - rewrite (assign_unfold _ _ _ _ _ _ _ _ _ _ Hacc) in Hassign. cbn in Hassign.
    destruct (_rewardCalculation _ _ _ _ _) as [reward|e] eqn:Hreward.
    + destruct (assigned st !! o) as [counter|] eqn:Hcounter.
      * injection Hassign as -> ->. by eapply step_assigned.
      * injection Hassign as -> ->. by eapply step_counter_missing.
    + injection Hassign as -> ->. by eapply step_reward_raises.
Qed.

Lemma step_spec_eq env st action st' res :
  step env st action = (st', res) → StepResult env st action st' res.
Proof. intros Hstep. generalize (step_spec env st action). by rewrite Hstep. Qed.

End StepSpec.

Section Lists.
Context {A : Type}.

Lemma lookup_insert_nested (g : list (list A)) n o row x n' o' row' y :
  g !! n = Some row →
  <[n := <[o := x]> row]> g !! n' = Some row' →
  row' !! o' = Some y →
  (n' = n ∧ o' = o ∧ y = x)
  ∨ ∃ old, g !! n' = Some old ∧ old !! o' = Some y.
Proof.
  intros Hrow Hrow' Hy.
  destruct (decide (n' = n)) as [->|Hn].
  - rewrite list_lookup_insert_eq in Hrow' by (by eapply lookup_lt_Some).
    injection Hrow' as <-.
    destruct (decide (o' = o)) as [->|Ho].
    + left. apply lookup_lt_Some in Hy as Hlt. rewrite length_insert in Hlt.
      rewrite list_lookup_insert_eq in Hy by done. by injection Hy as <-.
    + right. rewrite list_lookup_insert_ne in Hy by done. eauto.
  - right. rewrite list_lookup_insert_ne in Hrow' by done. eauto.
Qed.

Lemma sum_list_with_insert (f : A → nat) (l : list A) n x y :
  l !! n = Some x →
  (sum_list_with f (<[n := y]> l) + f x = sum_list_with f l + f y)%nat.
Proof.
  revert n. induction l as [|a l IH]; intros [|n]; simpl; try done.
  - intros [= ->]. lia.
  - intros Hx. specialize (IH n Hx). lia.
Qed.

Lemma sum_list_with_insert_same (f : A → nat) (l : list A) n x y :
  l !! n = Some x → f y = f x →
  sum_list_with f (<[n := y]> l) = sum_list_with f l.
Proof.
  intros Hx Hf. pose proof (sum_list_with_insert f l n x y Hx). lia.
Qed.

End Lists.

Section Shape.
Context `{Externals}.
Implicit Types (env : Env) (st : Store) (o n m : nat).

Lemma length_range z : length (range z) = Z.to_nat z.
Proof. unfold range. by rewrite length_fmap, length_seq. Qed.

Lemma construct_well_shaped env : well_shaped env (construct env).
Proof.
  unfold construct, init, fresh_state, fresh_assigned, fresh_rosters.
  split; cbn; unfold nOptions.
  - by rewrite length_fmap, length_seq.
  - apply Forall_fmap, Forall_forall. intros ? _. cbn.
    by rewrite length_fmap, length_range.
  - by rewrite length_fmap, length_range.
  - by rewrite length_fmap, length_seq.
  - apply Forall_fmap, Forall_forall. intros ? _. cbn.
    by rewrite length_fmap, length_range.
Qed.

Lemma reset_construct env st : (reset env st).1 = construct env.
Proof. done. Qed.

Lemma slot_written_well_shaped env st n o row v :
  state st !! n = Some row →
  well_shaped env st → well_shaped env (slot_written st n o row v).
Proof.
  intros Hrow [Hs Hrows Ha Hr Hb]. split; cbn; try done.
  - by rewrite length_insert.
  - apply Forall_insert; [done|]. rewrite length_insert.
    by eapply (Forall_lookup_1 _ _ _ _ Hrows).
Qed.

Lemma slot_committed_well_shaped env st action n o m row v counter buckets roster :
  state st !! n = Some row →
  studentsAssignedToProject st !! m = Some buckets →
  well_shaped env st →
  well_shaped env (slot_committed st action n o m row v counter buckets roster).
Proof.
  intros Hrow Hbuckets [Hs Hrows Ha Hr Hb]. split; cbn.
  - by rewrite length_insert.
  - apply Forall_insert; [done|]. rewrite length_insert.
    by eapply (Forall_lookup_1 _ _ _ _ Hrows).
  - by rewrite length_insert.
  - by rewrite length_insert.
  - apply Forall_insert; [done|]. rewrite length_insert.
    by eapply (Forall_lookup_1 _ _ _ _ Hb).
Qed.

Lemma StepResult_well_shaped env st action st' res :
  StepResult env st action st' res →
  well_shaped env st → well_shaped env st'.
Proof.
  intros Hres Hshape.
  destruct Hres as [| |? ? ? ? ? ? ? ? Hacc|? ? ? ? ? ? ? Hacc|? ? ? ? ? ? ? ? ? Hacc];
    try done.
  - apply slot_written_well_shaped; [apply Hacc|done].
  - apply slot_written_well_shaped; [apply Hacc|done].
  - apply slot_committed_well_shaped; [apply Hacc..|done].
Qed.

Lemma reachable_well_shaped env st : reachable env st → well_shaped env st.
Proof.
  induction 1 as [|st _ _|st action _ IH].
  - apply construct_well_shaped.
  - rewrite reset_construct. apply construct_well_shaped.
  - eapply StepResult_well_shaped; [apply step_spec|done].
Qed.

Lemma returning_reachable env st : reachable_returning env st → reachable env st.
Proof.
  induction 1 as [|st _ IH|st action st' out _ IH Hstep].
  - constructor.
  - by constructor.
  - replace st' with (step env st action).1 by (by rewrite Hstep).
    by constructor.
Qed.

End Shape.

Section Rejection.
Context `{Externals}.
Implicit Types (env : Env) (st : Store) (o n m : nat).

Lemma py_in_Z_true x l : py_in_Z x l = true ↔ x ∈ l.
Proof.
  unfold py_in_Z. rewrite existsb_exists. split.
  - intros (y & Hy & Heq). apply Z.eqb_eq in Heq as ->. by apply list_elem_of_In.
  - intros Hx. exists x. split; [by apply list_elem_of_In|apply Z.eqb_refl].
Qed.

Lemma py_in_Z_false x l : py_in_Z x l = false ↔ x ∉ l.
Proof.
  rewrite <- py_in_Z_true. destruct (py_in_Z x l); split; try done.
Qed.

Lemma acceptable_false env st action o n m row buckets roster project :
  FirstOpenSlot env st action o n m row buckets roster project →
  Project.nParticipants project ≤ py_len roster
  ∨ py_in_Z (Project.id project) row = true →
  acceptable env st action.1 action.2 (Z.of_nat o) = Ok false.
Proof.
  intros [Hn Hrow [Hopen _] Hm Hb Hr Hp] Hfail. unfold acceptable.
  assert (py_get (state st) action.1 = Ok row) as -> by (apply py_get_Ok; eauto).
  cbn. rewrite py_get_nat, Hopen. cbn.
  assert (py_get (studentsAssignedToProject st) action.2 = Ok buckets) as ->
    by (apply py_get_Ok; eauto).
  cbn. rewrite py_get_nat, Hr. cbn. rewrite Hp. cbn.
  destruct (py_len roster <? Project.nParticipants project) eqn:Hroom; [|done].
  cbn. apply Z.ltb_lt in Hroom.
  destruct Hfail as [Hfull| ->]; [lia|done].
Qed.

(** A failed acceptance test at the first open slot ends the call: no
    later slot is examined. *)
Lemma step_rejects env st action o n m row buckets roster project :
  FirstOpenSlot env st action o n m row buckets roster project →
  Project.nParticipants project ≤ py_len roster
  ∨ py_in_Z (Project.id project) row = true →
  step env st action = nothing_done env st.
Proof.
  intros Hfos Hfail. unfold step, range.
  apply step_loop_rejects with (stop := o); [lia| |].
  - intros o' _ Ho'. destruct Hfos as [Hn Hrow [Hopen Hbefore] _ _ _ _].
    destruct (lookup_lt_is_Some_2 row o') as [cell Hcell].
    { apply lookup_lt_Some in Hopen. lia. }
    exists cell. split; [|by eapply Hbefore].
    apply read_cell_Ok. eauto.
  - intros _. split; [|by eapply acceptable_false].
    destruct Hfos as [Hn Hrow [Hopen _] _ _ _ _].
    apply read_cell_Ok. eauto.
Qed.

(** With no open slot left the loop runs to its end. *)
Lemma step_no_open_slot env st action n row :
  py_index (length (state st)) action.1 = Some n →
  state st !! n = Some row →
  (nOptions env ≤ length row)%nat →
  (∀ o cell, row !! o = Some cell → cell ≠ -1) →
  step env st action = nothing_done env st.
Proof.
  intros Hn Hrow Hlen Hfilled. unfold step, range.
  apply step_loop_rejects with (stop := nOptions env); [lia| |].
  - intros o' _ Ho'.
    destruct (lookup_lt_is_Some_2 row o') as [cell Hcell]; [lia|].
    exists cell. split; [|by eapply Hfilled].
    apply read_cell_Ok. eauto.
  - unfold nOptions. lia.
Qed.

Lemma first_open_dec (row : list Z) :
  (∃ o, first_open row o) ∨ (∀ o cell, row !! o = Some cell → cell ≠ -1).
Proof.
  induction row as [|c row IH].
  - right. intros o cell. by rewrite lookup_nil.
  - destruct (decide (c = -1)) as [->|Hc].
    + left. exists 0%nat. split; [done|]. intros; lia.
    + destruct IH as [[o [Hopen Hbefore]]|Hfilled].
      * left. exists (S o). split; [done|].
        intros [|o'] cell Ho'; cbn; [by intros [= <-]|].
        apply Hbefore. lia.
      * right. intros [|o] cell; cbn; [by intros [= <-]|]. apply Hfilled.
Qed.

End Rejection.

Section Invariants.
Context `{Externals}.
Implicit Types (env : Env) (st : Store) (o n m : nat).

Lemma Acceptance_first_open env st action o n m row buckets roster project :
  Acceptance env st action o n m row buckets roster project →
  FirstOpenSlot env st action o n m row buckets roster project.
Proof. intros []. by split. Qed.

(** An accepted resource id is never the [-1] sentinel: the open cell
    itself holds [-1] and the id is not in the row. *)
Lemma Acceptance_id env st action o n m row buckets roster project :
  Acceptance env st action o n m row buckets roster project →
  Project.id project ≠ -1.
Proof.
  intros [_ _ _ [Hopen _] _ _ _ _ _ Hfresh] Hid.
  apply py_in_Z_false in Hfresh. apply Hfresh. rewrite Hid.
  by eapply list_elem_of_lookup_2.
Qed.

Lemma Acceptance_project env st action o n m row buckets roster project :
  well_shaped env st →
  Acceptance env st action o n m row buckets roster project →
  projects env !! m = Some project.
Proof.
  intros Hshape Hacc. destruct Hacc as [_ _ _ _ Hm _ _ Hp _ _].
  apply py_get_Ok in Hp as (m' & Hm' & Hp).
  rewrite (shape_rosters _ _ Hshape) in Hm. congruence.
Qed.

(** *** Capacity *)

Lemma construct_rosters_empty env m buckets o roster :
  studentsAssignedToProject (construct env) !! m = Some buckets →
  buckets !! o = Some roster → roster = [].
Proof.
  unfold construct, init, fresh_rosters. cbn.
  rewrite list_lookup_fmap. destruct (seq _ _ !! m); [|done]. cbn.
  intros [= <-]. rewrite list_lookup_fmap.
  destruct (range _ !! o); [|done]. cbn. by intros [= <-].
Qed.

Lemma construct_within_capacity env :
  Forall (λ project, 0 ≤ Project.nParticipants project) (projects env) →
  within_capacity env (construct env).
Proof.
  intros Hcap m project buckets o roster Hp Hb Hr.
  rewrite (construct_rosters_empty _ _ _ _ _ Hb Hr). cbn.
  by apply (Forall_lookup_1 _ _ _ _ Hcap Hp).
Qed.

Lemma StepResult_within_capacity env st action st' res :
  StepResult env st action st' res →
  well_shaped env st → within_capacity env st → within_capacity env st'.
Proof.
  intros Hres Hshape Hcap.
  destruct Hres as [| |? ? ? ? ? ? ? ? Hacc|? ? ? ? ? ? ? Hacc
                    |o n m row buckets roster project reward counter Hacc];
    try done.
  intros m' project' buckets' o' roster' Hp Hb Hr. cbn in Hb.
  destruct (lookup_insert_nested _ _ _ _ _ _ _ _ _ (acc_buckets _ _ _ _ _ _ _ _ _ _ Hacc) Hb Hr)
    as [(-> & -> & ->)|(old & Hold & Hr')].
  - rewrite (Acceptance_project _ _ _ _ _ _ _ _ _ _ Hshape Hacc) in Hp.
    injection Hp as <-. pose proof (acc_room _ _ _ _ _ _ _ _ _ _ Hacc) as Hroom.
    unfold py_len in *. rewrite length_app. cbn. lia.
  - by eapply Hcap.
Qed.

Lemma reachable_within_capacity env st :
  Forall (λ project, 0 ≤ Project.nParticipants project) (projects env) →
  reachable env st → within_capacity env st.
Proof.
  intros Hcap. induction 1 as [|st _ _|st action Hreach IH].
  - by apply construct_within_capacity.
  - rewrite reset_construct. by apply construct_within_capacity.
  - eapply StepResult_within_capacity; [apply step_spec| |done].
    by apply reachable_well_shaped.
Qed.

(** *** Roster members hold an assigned cell *)

Lemma read_cell_written st st' n o row v studentId o' cell :
  state st !! n = Some row →
  state st' = <[n := <[o := v]> row]> (state st) →
  v ≠ -1 →
  read_cell st studentId (Z.of_nat o') = Ok cell → cell ≠ -1 →
  ∃ cell', read_cell st' studentId (Z.of_nat o') = Ok cell' ∧ cell' ≠ -1.
Proof.
  intros Hrow Hst' Hv Hcell Hne.
  apply read_cell_Ok in Hcell as (k & r & Hk & Hr & Hc).
  assert (py_index (length (state st')) studentId = Some k) as Hk'
    by (by rewrite Hst', length_insert).
  destruct (decide (k = n)) as [->|Hkn].
  - assert (r = row) as -> by congruence.
    assert (state st' !! n = Some (<[o := v]> row)) as Hrow'.
    { rewrite Hst'. apply list_lookup_insert_eq. by eapply lookup_lt_Some. }
    destruct (decide (o' = o)) as [->|Ho].
    + exists v. split; [|done]. apply read_cell_Ok.
      exists n, (<[o := v]> row). repeat split; try done.
      apply list_lookup_insert_eq. by eapply lookup_lt_Some.
    + exists cell. split; [|done]. apply read_cell_Ok.
      exists n, (<[o := v]> row). repeat split; try done.
      by rewrite list_lookup_insert_ne.
  - exists cell. split; [|done]. apply read_cell_Ok.
    exists k, r. repeat split; try done.
    rewrite Hst'. by rewrite list_lookup_insert_ne.
Qed.

Lemma construct_rosters_sound env : rosters_sound (construct env).
Proof.
  intros m buckets o roster studentId Hb Hr Hin.
  rewrite (construct_rosters_empty _ _ _ _ _ Hb Hr) in Hin.
  by apply elem_of_nil in Hin.
Qed.

Lemma StepResult_rosters_sound env st action st' res :
  StepResult env st action st' res →
  rosters_sound st → rosters_sound st'.
Proof.
  intros Hres Hsound.
  destruct Hres as [| |o n m row buckets roster project e Hacc
                    |o n m row buckets roster project Hacc
                    |o n m row buckets roster project reward counter Hacc];
    try done.
  - intros m' buckets' o' roster' studentId Hb Hr Hin.
    destruct (Hsound _ _ _ _ _ Hb Hr Hin) as (cell & Hcell & Hne).
    eapply read_cell_written; try done.
    + apply Hacc.
    + by eapply Acceptance_id.
  - intros m' buckets' o' roster' studentId Hb Hr Hin.
    destruct (Hsound _ _ _ _ _ Hb Hr Hin) as (cell & Hcell & Hne).
    eapply read_cell_written; try done.
    + apply Hacc.
    + by eapply Acceptance_id.
  - intros m' buckets' o' roster' studentId Hb Hr Hin. cbn in Hb.
    pose proof (Acceptance_id _ _ _ _ _ _ _ _ _ _ Hacc) as Hid.
    destruct (lookup_insert_nested _ _ _ _ _ _ _ _ _ (acc_buckets _ _ _ _ _ _ _ _ _ _ Hacc) Hb Hr)
      as [(-> & -> & ->)|(old & Hold & Hr')].
    + apply elem_of_app in Hin as [Hin|Hin].
      * destruct (Hsound _ _ _ _ _ (acc_buckets _ _ _ _ _ _ _ _ _ _ Hacc)
                    (acc_roster _ _ _ _ _ _ _ _ _ _ Hacc) Hin)
          as (cell & Hcell & Hne).
        eapply read_cell_written; try done. apply Hacc.
      * apply list_elem_of_singleton in Hin as ->.
        exists (Project.id project). split; [|done].
        apply read_cell_Ok. cbn.
        exists n, (<[o := Project.id project]> row). rewrite length_insert.
        destruct Hacc as [_ Hn Hrow [Hopen _] _ _ _ _ _ _].
        repeat split; try done.
        -- apply list_lookup_insert_eq. by eapply lookup_lt_Some.
        -- apply list_lookup_insert_eq. by eapply lookup_lt_Some.
    + destruct (Hsound _ _ _ _ _ Hold Hr' Hin) as (cell & Hcell & Hne).
      eapply read_cell_written; try done. apply Hacc.
Qed.

Lemma reachable_rosters_sound env st : reachable env st → rosters_sound st.
Proof.
  induction 1 as [|st _ _|st action Hreach IH].
  - apply construct_rosters_sound.
  - rewrite reset_construct. apply construct_rosters_sound.
  - eapply StepResult_rosters_sound; [apply step_spec|done].
Qed.

End Invariants.

Section Counts.
Context `{Externals}.
Implicit Types (env : Env) (st : Store) (o n m : nat).

Lemma slot_filled_insert o o' (row : list Z) v :
  row !! o = Some (-1) → v ≠ -1 →
  slot_filled o' (<[o := v]> row) =
    if decide (o' = o) then true else slot_filled o' row.
Proof.
  intros Hopen Hv. unfold slot_filled. case_decide as Ho.
  - subst. rewrite list_lookup_insert_eq by (by eapply lookup_lt_Some).
    apply negb_true_iff. by apply Z.eqb_neq.
  - by rewrite list_lookup_insert_ne.
Qed.

(** Writing an id into an open cell of option [o] fills one more cell of
    option [o] and none of any other option. *)
Lemma filled_written (grid : list (list Z)) n o row v o' :
  grid !! n = Some row → row !! o = Some (-1) → v ≠ -1 →
  filled (<[n := <[o := v]> row]> grid) o' =
    (filled grid o' + if decide (o' = o) then 1 else 0)%nat.
Proof.
  intros Hrow Hopen Hv. unfold filled.
  pose proof (sum_list_with_insert
                (λ row, if slot_filled o' row then 1%nat else 0%nat)
                grid n row (<[o := v]> row) Hrow) as Hsum.
  cbn in Hsum. rewrite (slot_filled_insert _ _ _ _ Hopen Hv) in Hsum.
  case_decide as Ho.
  - subst. unfold slot_filled in Hsum at 2. rewrite Hopen in Hsum. cbn in Hsum. lia.
  - destruct (slot_filled o' row); lia.
Qed.

(** Appending an agent to the roster of [(m, o)] enrols one more agent
    for option [o] and none for any other option. *)
Lemma enrolled_committed (rosters : list (list (list Z))) m o buckets roster s o' :
  rosters !! m = Some buckets → buckets !! o = Some roster →
  enrolled (<[m := <[o := roster ++ [s]]> buckets]> rosters) o' =
    (enrolled rosters o' + if decide (o' = o) then 1 else 0)%nat.
Proof.
  intros Hb Hr. unfold enrolled.
  pose proof (sum_list_with_insert
                (λ buckets, length (default [] (buckets !! o')))
                rosters m buckets (<[o := roster ++ [s]]> buckets) Hb) as Hsum.
  cbn in Hsum. case_decide as Ho.
  - subst. rewrite list_lookup_insert_eq in Hsum by (by eapply lookup_lt_Some).
    rewrite Hr in Hsum. cbn in Hsum. rewrite length_app in Hsum. cbn in Hsum. lia.
  - rewrite list_lookup_insert_ne in Hsum by done. lia.
Qed.

Lemma filled_construct env o : filled (state (construct env)) o = 0%nat.
Proof.
  unfold construct, init, fresh_state, filled. cbn.
  induction (seq 0 (length (students env))) as [|k l IH]; [done|].
  cbn. rewrite IH. unfold slot_filled. rewrite list_lookup_fmap.
  by destruct (range _ !! o).
Qed.

Lemma enrolled_construct env o :
  enrolled (studentsAssignedToProject (construct env)) o = 0%nat.
Proof.
  unfold construct, init, fresh_rosters, enrolled. cbn.
  induction (seq 0 (length (projects env))) as [|k l IH]; [done|].
  cbn. rewrite IH. rewrite list_lookup_fmap.
  by destruct (range _ !! o).
Qed.

Lemma construct_counts_agree env o :
  (o < nOptions env)%nat → counts_agree (construct env) o.
Proof.
  intros Ho. split.
  - rewrite filled_construct. unfold construct, init, fresh_assigned. cbn.
    rewrite list_lookup_fmap.
    destruct (lookup_lt_is_Some_2 (range (numberOptions env)) o) as [z ->]; [|done].
    by rewrite length_range.
  - by rewrite filled_construct, enrolled_construct.
Qed.

(** The effect of a committed assignment on the three counts. *)
Lemma committed_counts st action n o m row v counter buckets roster o' :
  state st !! n = Some row → row !! o = Some (-1) → v ≠ -1 →
  studentsAssignedToProject st !! m = Some buckets →
  buckets !! o = Some roster →
  assigned st !! o = Some counter →
  let st' := slot_committed st action n o m row v counter buckets roster in
  filled (state st') o' =
    (filled (state st) o' + if decide (o' = o) then 1 else 0)%nat
  ∧ enrolled (studentsAssignedToProject st') o' =
      (enrolled (studentsAssignedToProject st) o'
       + if decide (o' = o) then 1 else 0)%nat
  ∧ assigned st' !! o' =
      (λ c, c + if decide (o' = o) then 1 else 0) <$> assigned st !! o'.
Proof.
  intros Hrow Hopen Hv Hb Hr Hc. cbn. repeat split.
  - by apply filled_written.
  - by apply enrolled_committed.
  - case_decide as Ho.
    + subst. rewrite list_lookup_insert_eq by (by eapply lookup_lt_Some).
      by rewrite Hc.
    + rewrite list_lookup_insert_ne by done.
      destruct (assigned st !! o'); cbn; [|done]. f_equal. lia.
Qed.

Lemma nothing_done_not_accepted env st out :
  (nothing_done env st).2 = Ok out → ¬ accepted out.
Proof.
  unfold nothing_done, accepted. cbn.
  destruct (observe env st); cbn; [|done].
  intros [= <-]. cbn. tauto.
Qed.

(** A call that returns either wrote nothing or committed a whole
    assignment. *)
Lemma returning_step_cases env st action st' out :
  step env st action = (st', Ok out) →
  (st' = st ∧ ¬ accepted out)
  ∨ ∃ o n m row buckets roster project counter,
      Acceptance env st action o n m row buckets roster project
      ∧ assigned st !! o = Some counter
      ∧ st' = slot_committed st action n o m row (Project.id project)
                counter buckets roster
      ∧ _rewardCalculation env (slot_written st n o row (Project.id project))
          action.1 action.2 (Z.of_nat o) = Ok (reward out)
      ∧ info out = OptionAssigned (Z.of_nat o) action.1 action.2 (reward out).
Proof.
  intros Hstep. apply step_spec_eq in Hstep.
  inversion Hstep as [| Hst Hres |? ? ? ? ? ? ? ? Hacc|? ? ? ? ? ? ? Hacc
                      |o n m row buckets roster project reward counter Hacc Hrew Hc];
    subst.
  - left. split; [done|]. exact (nothing_done_not_accepted env st' out Hres).
  - right. exists o, n, m, row, buckets, roster, project, counter. done.
Qed.

Lemma returning_step_counts_agree env st action st' out o' :
  step env st action = (st', Ok out) →
  counts_agree st o' → counts_agree st' o'.
Proof.
  intros Hstep [Hassigned Hfilled].
  apply returning_step_cases in Hstep
    as [[-> _]|(o & n & m & row & buckets & roster & project & counter
                & Hacc & Hc & -> & _)]; [done|].
  destruct (committed_counts st action n o m row (Project.id project) counter
              buckets roster o')
    as (Hf & He & Ha); try apply Hacc; try done.
  { by eapply Acceptance_id. }
  split.
  - rewrite Ha, Hassigned, Hf. cbn. f_equal. case_decide; lia.
  - rewrite Hf, He. lia.
Qed.

Lemma returning_counts_agree env st o :
  reachable_returning env st → (o < nOptions env)%nat → counts_agree st o.
Proof.
  intros Hreach Ho. induction Hreach as [|st _ _|st action st' out _ IH Hstep].
  - by apply construct_counts_agree.
  - rewrite reset_construct. by apply construct_counts_agree.
  - by eapply returning_step_counts_agree.
Qed.

End Counts.

Section Skills.
Context `{Externals}.
Implicit Types (env : Env) (st : Store) (o n m : nat).

Lemma first_covering_member env skill roster studentId :
  first_covering env skill roster = Ok (Some studentId) → studentId ∈ roster.
Proof.
  induction roster as [|sid roster IH]; cbn; [done|].
  destruct (py_get (students env) sid) as [s|]; cbn; [|done].
  destruct (py_in_str skill (Student.skills s)).
  - intros [= ->]. apply list_elem_of_here.
  - intros Hrest. apply list_elem_of_further. by apply IH.
Qed.

(** When the scanned roster never contains [studentNumber], the two
    coverage accumulators move in lockstep. *)
Lemma skill_loop_others env st project s option acc skills acc' :
  (∀ buckets roster,
     py_get (studentsAssignedToProject st) (Project.id project) = Ok buckets →
     py_get buckets option = Ok roster → s ∉ roster) →
  skillsPunctuation acc = oldSkillsPunctuation acc →
  skill_loop env st project s option acc skills = Ok acc' →
  skillsPunctuation acc' = oldSkillsPunctuation acc'.
Proof.
  intros Hothers. revert acc.
  induction skills as [|skill skills IH]; intros acc Heq; cbn.
  { by intros [= <-]. }
  unfold skill_iteration.
  destruct (py_get (studentsAssignedToProject st) (Project.id project))
    as [buckets|] eqn:Hb; cbn; [|done].
  destruct (py_get buckets option) as [roster|] eqn:Hr; cbn; [|done].
  destruct (first_covering env skill.2 roster) as [[studentId|]|] eqn:Hfound;
    cbn; [| |done].
  - apply first_covering_member in Hfound.
    assert (studentId ≠ s) as Hne.
    { intros ->. by eapply Hothers. }
    apply Z.eqb_neq in Hne. rewrite Hne.
    apply IH. cbn. by rewrite Heq.
  - by apply IH.
Qed.

Lemma skillsTerm_others env st project s option term :
  (∀ buckets roster,
     py_get (studentsAssignedToProject st) (Project.id project) = Ok buckets →
     py_get buckets option = Ok roster → s ∉ roster) →
  skillsTerm env st project s option = Ok term → (term == 0)%Q.
Proof.
  intros Hothers. unfold skillsTerm.
  destruct (skill_loop _ _ _ _ _ _ _) as [acc|] eqn:Hloop; cbn; [|done].
  apply skill_loop_others in Hloop; [|done..].
  rewrite Hloop. unfold py_div.
  destruct (Qeq_bool _ _); cbn; [done|].
  intros [= <-]. unfold Qminus. apply Qplus_opp_r.
Qed.

(** In a reachable store the roster scanned by the reward of an accepting
    step does not contain the agent being assigned: the agent is appended
    only after the reward has been computed. *)
Lemma accepting_roster_excludes_agent env st action o n m row buckets roster project :
  rosters_sound st →
  Acceptance env st action o n m row buckets roster project →
  ∀ buckets' roster',
    py_get (studentsAssignedToProject st) (Project.id project) = Ok buckets' →
    py_get buckets' (Z.of_nat o) = Ok roster' → action.1 ∉ roster'.
Proof.
  intros Hsound Hacc buckets' roster' Hb Hr Hin.
  apply py_get_Ok in Hb as (m' & _ & Hb).
  rewrite py_get_nat in Hr.
  destruct (buckets' !! o) as [r|] eqn:Hr'; [|done]. injection Hr as ->.
  destruct (Hsound _ _ _ _ _ Hb Hr' Hin) as (cell & Hcell & Hne).
  destruct Hacc as [_ Hn Hrow [Hopen _] _ _ _ _ _ _].
  assert (read_cell st action.1 (Z.of_nat o) = Ok (-1)) as Hopen'
    by (apply read_cell_Ok; eauto).
  congruence.
Qed.

(** With no needed skill the normalisation divides [0.0] by [0.0]. *)
Lemma skillsTerm_no_skills env st project s option :
  Project.preferredSkillsNeeded project = [] →
  skillsTerm env st project s option = Raise ZeroDivisionError.
Proof. unfold skillsTerm. by intros ->. Qed.

Lemma step_loop_skips env st s p k len stop :
  (k ≤ stop)%nat → (stop ≤ k + len)%nat →
  (∀ o', (k ≤ o' < stop)%nat →
     ∃ cell, read_cell st s (Z.of_nat o') = Ok cell ∧ cell ≠ -1) →
  step_loop env st s p (Z.of_nat <$> seq k len) =
  step_loop env st s p (Z.of_nat <$> seq stop (k + len - stop)).
Proof.
  revert k. induction len as [|len IH]; intros k Hk Hstop Hfilled.
  { assert (stop = k) as -> by lia.
    by replace (k + 0 - k)%nat with 0%nat by lia. }
  destruct (decide (k = stop)) as [->|Hne].
  { by replace (stop + S len - stop)%nat with (S len) by lia. }
  cbn. destruct (Hfilled k) as (cell & Hcell & Hcellne); [lia|].
  rewrite (acceptable_filled _ _ _ _ _ _ Hcell Hcellne), Hcell.
  replace (cell =? -1) with false by (symmetry; by apply Z.eqb_neq).
  rewrite (IH (S k)); [|lia..|].
  - by replace (S k + len - stop)%nat with (k + S len - stop)%nat by lia.
  - intros o' Ho'. apply Hfilled. lia.
Qed.

(** The acceptance test passes on what [Acceptance] records, and [step]
    then runs its accepting branch at that option. *)
Lemma step_accepts env st action o n m row buckets roster project :
  Acceptance env st action o n m row buckets roster project →
  step env st action = assign env st action.1 action.2 (Z.of_nat o).
Proof.
  intros Hacc. pose proof Hacc as [Ho Hn Hrow [Hopen Hbefore] Hm Hb Hr Hp Hroom Hfresh].
  unfold step, range.
  rewrite (step_loop_skips _ _ _ _ _ _ o); [|lia|unfold nOptions in Ho; lia|].
  - replace (0 + Z.to_nat (numberOptions env) - o)%nat
      with (S (Z.to_nat (numberOptions env) - S o))
      by (unfold nOptions in Ho; lia).
    cbn.
    assert (acceptable env st action.1 action.2 (Z.of_nat o) = Ok true) as ->; [|done].
    unfold acceptable.
    assert (py_get (state st) action.1 = Ok row) as -> by (apply py_get_Ok; eauto).
    cbn. rewrite py_get_nat, Hopen. cbn.
    assert (py_get (studentsAssignedToProject st) action.2 = Ok buckets) as ->
      by (apply py_get_Ok; eauto).
    cbn. rewrite py_get_nat, Hr. cbn. rewrite Hp. cbn.
    replace (py_len roster <? Project.nParticipants project) with true
      by (symmetry; by apply Z.ltb_lt).
    cbn. by rewrite Hfresh.
  - intros o' Ho'.
    destruct (lookup_lt_is_Some_2 row o') as [cell Hcell].
    { apply lookup_lt_Some in Hopen. lia. }
    exists cell. split; [|eapply Hbefore; [|done]; lia].
    apply read_cell_Ok. eauto.
Qed.

End Skills.

(** * Properties of the specification *)

Section Termination.
Context `{Externals}.

(** C8. [_isDone] answers true exactly when every per-option counter in
    [assigned] equals the number of students; this holds of every store,
    reachable or not. *)
Theorem isDone_iff_counters_full (env : Env) (st : Store) :
  _isDone env st = true
  ↔ ∀ o counter, assigned st !! o = Some counter →
                 counter = py_len (students env).
Proof.
  unfold _isDone. rewrite forallb_forall. split.
  - intros Hall o counter Hc. apply Z.eqb_eq, Hall.
    apply list_elem_of_In. by eapply list_elem_of_lookup_2.
  - intros Hall counter Hin. apply Z.eqb_eq.
    apply list_elem_of_In, list_elem_of_lookup in Hin as [o Ho].
    by eapply Hall.
Qed.

(** C9. After construction and any sequence of [step] calls, [reset]
    leaves exactly the store a fresh construction with the same students,
    projects and number of options has: every grid cell is [-1], every
    counter is [0] and every roster is empty. *)
Theorem reset_restores_construction (env : Env) (actions : list (Z * Z)) :
  let st := (reset env (run env (construct env) actions)).1 in
  st = init (students env) (projects env) (numberOptions env)
  ∧ Forall (Forall (λ cell, cell = -1)) (state st)
  ∧ Forall (λ counter, counter = 0) (assigned st)
  ∧ Forall (Forall (λ roster, roster = [])) (studentsAssignedToProject st).
Proof.
  cbn. split; [done|].
  unfold fresh_state, fresh_assigned, fresh_rosters.
  repeat split; repeat (apply Forall_fmap, Forall_forall; intros ? _; cbn); done.
Qed.

End Termination.

Section CapacityAndRejection.
Context `{Externals}.
Implicit Types (env : Env) (st : Store) (o n m : nat).

(** C5. When the declared capacities are not negative, in every
    reachable store the roster of every (resource, option) bucket is at
    most [nParticipants] long; and a step whose resource's bucket is
    already full at the agent's first open slot is rejected: it returns
    through the final [return] of [step] with the store as it was. *)
Theorem capacity_law env st :
  Forall (λ project, 0 ≤ Project.nParticipants project) (projects env) →
  reachable env st →
  within_capacity env st
  ∧ ∀ action o n m row buckets roster project,
      FirstOpenSlot env st action o n m row buckets roster project →
      Project.nParticipants project ≤ py_len roster →
      step env st action = nothing_done env st.
Proof.
  intros Hcap Hreach. split.
  - by apply reachable_within_capacity.
  - intros action o n m row buckets roster project Hfos Hfull.
    eapply step_rejects; [done|by left].
Qed.

(** The store of a committed assignment rejects the same action. *)
Lemma committed_then_rejects env st action o n m row buckets roster project counter :
  well_shaped env st →
  Acceptance env st action o n m row buckets roster project →
  let st' := slot_committed st action n o m row (Project.id project)
               counter buckets roster in
  step env st' action = nothing_done env st'.
Proof.
  intros Hshape Hacc st'.
  pose proof Hacc as [Ho Hn Hrow [Hopen Hbefore] Hm Hb Hr Hp Hroom Hfresh].
  assert (length row = nOptions env) as Hlen
    by (by eapply (Forall_lookup_1 _ _ _ _ (shape_rows _ _ Hshape))).
  assert (length buckets = nOptions env) as Hlenb
    by (by eapply (Forall_lookup_1 _ _ _ _ (shape_buckets _ _ Hshape))).
  set (row' := <[o := Project.id project]> row).
  assert (state st' !! n = Some row') as Hrow'.
  { cbn. apply list_lookup_insert_eq. by eapply lookup_lt_Some. }
  assert (py_index (length (state st')) action.1 = Some n) as Hn'.
  { cbn. by rewrite length_insert. }
  destruct (first_open_dec row') as [[o2 Hopen2]|Hfilled].
  - assert (o2 < length row')%nat as Ho2 by (eapply lookup_lt_Some; apply Hopen2).
    unfold row' in Ho2. rewrite length_insert in Ho2.
    destruct (lookup_lt_is_Some_2 (<[o := roster ++ [action.1]]> buckets) o2)
      as [roster2 Hr2]; [rewrite length_insert; lia|].
    eapply (step_rejects env st' action o2 n m row' _ roster2 project).
    + split; try done.
      * cbn. by rewrite length_insert.
      * cbn. apply list_lookup_insert_eq. by eapply lookup_lt_Some.
    + right. apply py_in_Z_true. apply list_elem_of_lookup. exists o.
      unfold row'. apply list_lookup_insert_eq. lia.
  - eapply step_no_open_slot; try done.
    unfold row'. rewrite length_insert. lia.
Qed.

(** C6. If, at the agent's first open slot, the bucket of the resource is
    full or the agent's row already holds the resource's id, [step]
    leaves the store as it is and returns the current observation, reward
    0, the current done flag and the nothing-done info; no later slot is
    written.  In particular, in a reachable store, repeating an action
    that has just been accepted returns this outcome. *)
Theorem first_open_slot_rejection env :
  (∀ st action o n m row buckets roster project,
      FirstOpenSlot env st action o n m row buckets roster project →
      Project.nParticipants project ≤ py_len roster
      ∨ Project.id project ∈ row →
      step env st action =
        (st, obs ← observe env st;
             Ok {| observation := obs; reward := 0;
                   done := _isDone env st; info := NothingDone |}))
  ∧ (∀ st action st' out,
      reachable env st →
      step env st action = (st', Ok out) → accepted out →
      step env st' action =
        (st', obs ← observe env st';
              Ok {| observation := obs; reward := 0;
                    done := _isDone env st'; info := NothingDone |})).
Proof.
  split.
  - intros st action o n m row buckets roster project Hfos Hfail.
    eapply step_rejects; [done|].
    destruct Hfail as [Hfull|Hheld]; [by left|right]. by apply py_in_Z_true.
  - intros st action st' out Hreach Hstep Hacc.
    apply returning_step_cases in Hstep
      as [[_ Hno]|(o & n & m & row & buckets & roster & project & counter
                   & Hacceptance & _ & -> & _)]; [done|].
    apply committed_then_rejects; [|done].
    by apply reachable_well_shaped.
Qed.

End CapacityAndRejection.

Section Counters.
Context `{Externals}.
Implicit Types (env : Env) (st : Store) (o n m : nat).

(** C10, as amended.  In every store reached from construction or reset
    by [step] calls that all returned, for every option [o] the counter
    [assigned[o]] equals the number of grid rows whose cell [o] is not
    [-1], which equals the total length of the rosters of option [o];
    and each accepted step raises the three quantities by one for the
    option it reports and leaves them alone for every other option. *)
Theorem counters_track_grid_and_rosters env :
  (∀ st o,
      reachable_returning env st → (o < nOptions env)%nat →
      assigned st !! o = Some (Z.of_nat (filled (state st) o))
      ∧ filled (state st) o = enrolled (studentsAssignedToProject st) o)
  ∧ (∀ st action st' out,
      reachable_returning env st →
      step env st action = (st', Ok out) → accepted out →
      ∃ o, (o < nOptions env)%nat
        ∧ info out = OptionAssigned (Z.of_nat o) action.1 action.2 (reward out)
        ∧ ∀ o',
            let bump := if decide (o' = o) then 1%nat else 0%nat in
            filled (state st') o' = (filled (state st) o' + bump)%nat
            ∧ enrolled (studentsAssignedToProject st') o' =
                (enrolled (studentsAssignedToProject st) o' + bump)%nat
            ∧ assigned st' !! o' =
                (λ counter, counter + Z.of_nat bump) <$> assigned st !! o').
Proof.
  split.
  - intros st o Hreach Ho. by apply (returning_counts_agree env).
  - intros st action st' out _ Hstep Hacc.
    apply returning_step_cases in Hstep
      as [[_ Hno]|(o & n & m & row & buckets & roster & project & counter
                   & Hacceptance & Hc & -> & _ & Hinfo)]; [done|].
    exists o. split; [exact (acc_option _ _ _ _ _ _ _ _ _ _ Hacceptance)|].
    split; [done|].
    intros o' bump.
    destruct (committed_counts st action n o m row (Project.id project) counter
                buckets roster o')
      as (Hf & He & Ha); try apply Hacceptance; try done.
    { by eapply Acceptance_id. }
    repeat split; try done.
    rewrite Ha. unfold bump. destruct (assigned st !! o'); cbn; [|done].
    f_equal. case_decide; lia.
Qed.

End Counters.

Section Errors.
Context `{Externals}.
Implicit Types (env : Env) (st : Store) (o n m : nat).

(** C4, as amended.  In a reachable store, an action whose agent index is
    below [-len(students)] or at least [len(students)], or whose resource
    index is below [-len(projects)] or at least [len(projects)], leaves
    the store exactly as it was: the call raises [IndexError], or returns
    through the final [return] when no open slot was examined. *)
Theorem unindexable_action_leaves_store env st action :
  reachable env st →
  action.1 < - py_len (students env) ∨ py_len (students env) ≤ action.1
  ∨ action.2 < - py_len (projects env) ∨ py_len (projects env) ≤ action.2 →
  (step env st action).1 = st
  ∧ ((step env st action).2 = Raise IndexError
     ∨ (step env st action).2 = (nothing_done env st).2).
Proof.
  intros Hreach Hrange. apply reachable_well_shaped in Hreach as Hshape.
  assert (py_index (length (state st)) action.1 = None
          ∨ py_index (length (projects env)) action.2 = None) as Hnone.
  { rewrite (shape_state _ _ Hshape). rewrite !py_index_None.
    unfold py_len in Hrange. tauto. }
  destruct (step_spec env st action)
    as [| |? ? ? ? ? ? ? ? Hacc|? ? ? ? ? ? ? Hacc|? ? ? ? ? ? ? ? ? Hacc];
    try (split; [done|tauto]).
  all: exfalso; destruct Hacc as [_ Hn _ _ _ _ _ Hp _ _];
    apply py_get_Ok in Hp as (m' & Hm' & _);
    destruct Hnone; congruence.
Qed.

Lemma nothing_done_Raise env st e :
  (nothing_done env st).2 = Raise e → e = ExternalError.
Proof.
  unfold nothing_done, observe, imageStateGeneration. cbn.
  destruct (withImage env); cbn; [|done].
  destruct (numpy_image _ _); cbn; [done|]. by intros [= <-].
Qed.

(** C2, as amended.  A [step] call that aborts on a zero denominator
    leaves the counters and the rosters as they were; of the grid, only
    the agent's first open slot differs: it holds the resource's id. *)
Theorem zero_division_frame env st action st' :
  step env st action = (st', Raise ZeroDivisionError) →
  assigned st' = assigned st
  ∧ studentsAssignedToProject st' = studentsAssignedToProject st
  ∧ ∃ n row o project,
      py_index (length (state st)) action.1 = Some n
      ∧ state st !! n = Some row
      ∧ first_open row o
      ∧ py_get (projects env) action.2 = Ok project
      ∧ state st' = <[n := <[o := Project.id project]> row]> (state st).
Proof.
  intros Hstep. apply step_spec_eq in Hstep.
  inversion Hstep as [| Hst Hres |o n m row buckets roster project e Hacc Hrew
                      |? ? ? ? ? ? ? Hacc|]; subst.
  - by apply (nothing_done_Raise env st') in Hres.
  - repeat split; try done.
    exists n, row, o, project. destruct Hacc. done.
Qed.

(** C7, as amended.  When the acceptance test of [step] passes for a
    resource whose skill-needs list is empty and both preference
    aggregators succeed, the skill normalisation divides zero by zero:
    the call raises [ZeroDivisionError] and returns no reward. *)
Theorem empty_skill_needs_abort env st action o n m row buckets roster
    project student studentScore projectScore :
  Acceptance env st action o n m row buckets roster project →
  Project.preferredSkillsNeeded project = [] →
  py_get (students env) action.1 = Ok student →
  _studentPreferencesPunctuation student project = Ok studentScore →
  _projectPreferencesPunctuation student project = Ok projectScore →
  (step env st action).2 = Raise ZeroDivisionError.
Proof.
  intros Hacc Hskills Hstudent Hs Hp.
  rewrite (step_accepts _ _ _ _ _ _ _ _ _ _ Hacc).
  rewrite (assign_unfold _ _ _ _ _ _ _ _ _ _ Hacc). cbn.
  unfold _rewardCalculation. rewrite Hstudent. cbn.
  rewrite (acc_project _ _ _ _ _ _ _ _ _ _ Hacc). cbn.
  rewrite Hs, Hp. cbn. by rewrite skillsTerm_no_skills.
Qed.

(** In every reachable store the reward of an accepted step carries no
    skill term: the roster is scanned before the agent joins it, so both
    coverage totals are equal and the reward is
    [ALPHA * studentScore + GAMMA * projectScore]. *)
Lemma accepted_reward_has_no_skill_term env st action st' out :
  reachable env st →
  step env st action = (st', Ok out) → accepted out →
  ∃ student project studentScore projectScore,
    py_get (students env) action.1 = Ok student
    ∧ py_get (projects env) action.2 = Ok project
    ∧ _studentPreferencesPunctuation student project = Ok studentScore
    ∧ _projectPreferencesPunctuation student project = Ok projectScore
    ∧ (reward out == ALPHA * studentScore + GAMMA * projectScore)%Q.
Proof.
  intros Hreach Hstep Hacc.
  apply returning_step_cases in Hstep
    as [[_ Hno]|(o & n & m & row & buckets & roster & project & counter
                 & Hacceptance & _ & _ & Hrew & _)]; [done|].
  unfold _rewardCalculation in Hrew.
  destruct (py_get (students env) action.1) as [student|] eqn:Hstudent;
    cbn in Hrew; [|done].
  rewrite (acc_project _ _ _ _ _ _ _ _ _ _ Hacceptance) in Hrew. cbn in Hrew.
  destruct (_studentPreferencesPunctuation student project) as [a|] eqn:Ha;
    cbn in Hrew; [|done].
  destruct (_projectPreferencesPunctuation student project) as [b|] eqn:Hb;
    cbn in Hrew; [|done].
  destruct (skillsTerm _ _ _ _ _) as [term|] eqn:Hterm; cbn in Hrew; [|done].
  injection Hrew as Hrew.
  exists student, project, a, b.
  split; [done|]. split; [exact (acc_project _ _ _ _ _ _ _ _ _ _ Hacceptance)|].
  split; [done|]. split; [done|].
  apply skillsTerm_others in Hterm.
  - rewrite <- Hrew, Hterm. ring.
  - apply reachable_rosters_sound in Hreach.
    by eapply (accepting_roster_excludes_agent env st action).
Qed.

(** With both preference scores in [0, 1] the reward of an accepted step
    lies in [0, 10] (indeed in [0, 8]). *)
Lemma reward_bounded_for_unit_scores env st action st' out :
  reachable env st →
  step env st action = (st', Ok out) → accepted out →
  (∀ student project score,
     py_get (students env) action.1 = Ok student →
     py_get (projects env) action.2 = Ok project →
     _studentPreferencesPunctuation student project = Ok score
     ∨ _projectPreferencesPunctuation student project = Ok score →
     (0 <= score <= 1)%Q) →
  (0 <= reward out <= 10)%Q.
Proof.
  intros Hreach Hstep Hacc Hunit.
  destruct (accepted_reward_has_no_skill_term _ _ _ _ _ Hreach Hstep Hacc)
    as (student & project & a & b & Hs & Hp & Ha & Hb & Hrew).
  destruct (Hunit student project a Hs Hp (or_introl Ha)) as [Ha0 Ha1].
  destruct (Hunit student project b Hs Hp (or_intror Hb)) as [Hb0 Hb1].
  rewrite Hrew. unfold ALPHA, GAMMA. split.
  - apply Qle_trans with (0 * a + 0 * b)%Q; [by ring_simplify|].
    apply Qplus_le_compat; apply Qmult_le_compat_r; done.
  - apply Qle_trans with (5 * 1 + 3 * 1)%Q; [|done].
    apply Qplus_le_compat; apply Qmult_le_l; done.
Qed.

End Errors.

(** * Further properties of the state machine *)

Section Discipline.
Context `{Externals}.
Implicit Types (env : Env) (st : Store) (o n m : nat).

(** An assigned cell survives the write of an open one. *)
Lemma read_cell_kept st st' n o row v studentId o' cell :
  state st !! n = Some row → row !! o = Some (-1) →
  state st' = <[n := <[o := v]> row]> (state st) →
  read_cell st studentId (Z.of_nat o') = Ok cell → cell ≠ -1 →
  read_cell st' studentId (Z.of_nat o') = Ok cell.
Proof.
  intros Hrow Hopen Hst' Hcell Hne.
  apply read_cell_Ok in Hcell as (k & r & Hk & Hr & Hc).
  apply read_cell_Ok. rewrite Hst', length_insert.
  destruct (decide (k = n)) as [->|Hkn].
  - assert (r = row) as -> by congruence.
    exists n, (<[o := v]> row). split; [done|]. split.
    + apply list_lookup_insert_eq. by eapply lookup_lt_Some.
    + destruct (decide (o' = o)) as [->|Ho]; [congruence|].
      by rewrite list_lookup_insert_ne.
  - exists k, r. split; [done|]. by rewrite list_lookup_insert_ne.
Qed.

Lemma construct_row env n row o cell :
  state (construct env) !! n = Some row → row !! o = Some cell → cell = -1.
Proof.
  unfold construct, init, fresh_state. cbn.
  rewrite list_lookup_fmap. destruct (seq _ _ !! n); [|done]. cbn.
  intros [= <-]. rewrite list_lookup_fmap.
  destruct (range _ !! o); [|done]. cbn. by intros [= <-].
Qed.

Lemma filled_in_order_write (row : list Z) o v :
  first_open row o → filled_in_order row → filled_in_order (<[o := v]> row).
Proof.
  intros [Hopen Hbefore] Horder o1 o2 cell Hcell Hne Hlt.
  assert (o < length row)%nat as Ho by (by eapply lookup_lt_Some).
  destruct (decide (o1 = o)) as [->|Ho1].
  - destruct (lookup_lt_is_Some_2 row o2) as [c Hc]; [lia|].
    exists c. rewrite list_lookup_insert_ne by lia. split; [done|].
    by eapply Hbefore.
  - rewrite list_lookup_insert_ne in Hcell by done.
    destruct (Horder o1 o2 cell Hcell Hne Hlt) as (c & Hc & Hcne).
    exists c. split; [|done].
    rewrite list_lookup_insert_ne; [done|]. intros ->. congruence.
Qed.

Lemma no_resource_twice_write (row : list Z) o v :
  row !! o = Some (-1) → v ∉ row →
  no_resource_twice row → no_resource_twice (<[o := v]> row).
Proof.
  intros Hopen Hfresh Hdistinct o1 o2 cell H1 H2 Hne.
  assert (o < length row)%nat as Ho by (by eapply lookup_lt_Some).
  destruct (decide (o1 = o)) as [->|Ho1]; destruct (decide (o2 = o)) as [->|Ho2];
    try done.
  - rewrite list_lookup_insert_eq in H1 by done. injection H1 as <-.
    rewrite list_lookup_insert_ne in H2 by done.
    destruct Hfresh. by eapply list_elem_of_lookup_2.
  - rewrite list_lookup_insert_eq in H2 by done. injection H2 as <-.
    rewrite list_lookup_insert_ne in H1 by done.
    destruct Hfresh. by eapply list_elem_of_lookup_2.
  - rewrite list_lookup_insert_ne in H1, H2 by done. by eapply Hdistinct.
Qed.

(** The grid [step] leaves: the old one, or the old one with the id
    written into the first open slot of one row. *)
Lemma StepResult_grid env st action st' res :
  StepResult env st action st' res →
  state st' = state st
  ∨ ∃ n row o project,
      state st !! n = Some row ∧ first_open row o
      ∧ (Project.id project ∉ row) ∧ Project.id project ≠ -1
      ∧ state st' = <[n := <[o := Project.id project]> row]> (state st).
Proof.
  intros Hres.
  destruct Hres as [| |o n m row buckets roster project e Hacc
                    |o n m row buckets roster project Hacc
                    |o n m row buckets roster project reward counter Hacc];
    [by left|by left|right..].
  all: exists n, row, o, project;
    pose proof (Acceptance_id _ _ _ _ _ _ _ _ _ _ Hacc) as Hid;
    destruct Hacc as [_ _ Hrow Hopen _ _ _ _ _ Hfresh];
    apply py_in_Z_false in Hfresh; done.
Qed.

Lemma reachable_rows env st n row :
  reachable env st → state st !! n = Some row →
  filled_in_order row ∧ no_resource_twice row.
Proof.
  intros Hreach. revert n row.
  induction Hreach as [|st _ _|st action Hreach IH]; intros n row Hrow.
  - split.
    + intros o o' cell Hcell Hne. by apply (construct_row _ _ _ _ _ Hrow) in Hcell.
    + intros o o' cell Hcell _ Hne. by apply (construct_row _ _ _ _ _ Hrow) in Hcell.
  - rewrite reset_construct in Hrow. split.
    + intros o o' cell Hcell Hne. by apply (construct_row _ _ _ _ _ Hrow) in Hcell.
    + intros o o' cell Hcell _ Hne. by apply (construct_row _ _ _ _ _ Hrow) in Hcell.
  - destruct (StepResult_grid _ _ _ _ _ (step_spec env st action))
      as [Hsame|(k & old & o & project & Hold & Hopen & Hfresh & Hid & Hgrid)].
    + rewrite Hsame in Hrow. by apply (IH n).
    + rewrite Hgrid in Hrow. destruct (decide (n = k)) as [->|Hnk].
      * rewrite list_lookup_insert_eq in Hrow by (by eapply lookup_lt_Some).
        injection Hrow as <-. destruct (IH k old Hold) as [Horder Hdistinct].
        split.
        -- by apply filled_in_order_write.
        -- apply no_resource_twice_write; [apply Hopen|done..].
      * rewrite list_lookup_insert_ne in Hrow by done. by apply (IH n).
Qed.

(** X1. In every reachable store each agent's row is filled from the
    left: a slot is assigned only if every earlier slot is. *)
Theorem rows_fill_left_to_right env st n row o o' cell :
  reachable env st →
  state st !! n = Some row →
  row !! o = Some cell → cell ≠ -1 → (o' < o)%nat →
  ∃ cell', row !! o' = Some cell' ∧ cell' ≠ -1.
Proof.
  intros Hreach Hrow. destruct (reachable_rows env st n row Hreach Hrow) as [Horder _].
  apply Horder.
Qed.

(** X2. In every reachable store no agent holds the same resource id in
    two of its slots. *)
Theorem no_resource_twice_in_row env st n row o o' cell :
  reachable env st →
  state st !! n = Some row →
  row !! o = Some cell → row !! o' = Some cell → cell ≠ -1 → o = o'.
Proof.
  intros Hreach Hrow.
  destruct (reachable_rows env st n row Hreach Hrow) as [_ Hdistinct].
  apply Hdistinct.
Qed.

(** X3. [step] and [reset] never change the dimensions the constructor
    gave: one row of [numberOptions] cells per student, [numberOptions]
    counters, and [numberOptions] rosters per project. *)
Theorem dimensions_never_change env st :
  reachable env st →
  length (state st) = length (students env)
  ∧ Forall (λ row, length row = Z.to_nat (numberOptions env)) (state st)
  ∧ length (assigned st) = Z.to_nat (numberOptions env)
  ∧ length (studentsAssignedToProject st) = length (projects env)
  ∧ Forall (λ buckets, length buckets = Z.to_nat (numberOptions env))
           (studentsAssignedToProject st).
Proof.
  intros Hreach. by destruct (reachable_well_shaped env st Hreach).
Qed.

End Discipline.

Section RosterDiscipline.
Context `{Externals}.
Implicit Types (env : Env) (st : Store) (o n m : nat).

Lemma construct_rosters_hold_resource env : rosters_hold_resource env (construct env).
Proof.
  intros m project buckets o roster studentId _ Hb Hr Hin.
  rewrite (construct_rosters_empty _ _ _ _ _ Hb Hr) in Hin.
  by apply elem_of_nil in Hin.
Qed.

Lemma StepResult_rosters_hold_resource env st action st' res :
  StepResult env st action st' res →
  well_shaped env st →
  rosters_hold_resource env st → rosters_hold_resource env st'.
Proof.
  intros Hres Hshape Hhold.
  destruct Hres as [| |o n m row buckets roster project e Hacc
                    |o n m row buckets roster project Hacc
                    |o n m row buckets roster project reward counter Hacc];
    try done.
  - intros m' project' buckets' o' roster' studentId Hp Hb Hr Hin.
    destruct (Hhold _ _ _ _ _ _ Hp Hb Hr Hin) as [Hcell Hne]. split; [|done].
    eapply read_cell_kept; try done; apply Hacc.
  - intros m' project' buckets' o' roster' studentId Hp Hb Hr Hin.
    destruct (Hhold _ _ _ _ _ _ Hp Hb Hr Hin) as [Hcell Hne]. split; [|done].
    eapply read_cell_kept; try done; apply Hacc.
  - intros m' project' buckets' o' roster' studentId Hp Hb Hr Hin. cbn in Hb.
    pose proof (Acceptance_id _ _ _ _ _ _ _ _ _ _ Hacc) as Hid.
    pose proof (Acceptance_project _ _ _ _ _ _ _ _ _ _ Hshape Hacc) as Hproject.
    pose proof Hacc as [_ Hn Hrow [Hopen _] _ Hbuckets Hroster _ _ _].
    destruct (lookup_insert_nested _ _ _ _ _ _ _ _ _ Hbuckets Hb Hr)
      as [(-> & -> & ->)|(old & Hold & Hr')].
    + assert (project' = project) as -> by congruence.
      apply elem_of_app in Hin as [Hin|Hin].
      * destruct (Hhold _ _ _ _ _ _ Hp Hbuckets Hroster Hin) as [Hcell Hne].
        split; [|done]. by eapply read_cell_kept.
      * apply list_elem_of_singleton in Hin as ->. split; [|done].
        apply read_cell_Ok. cbn.
        exists n, (<[o := Project.id project]> row). rewrite length_insert.
        split; [done|].
        split; apply list_lookup_insert_eq; by eapply lookup_lt_Some.
    + destruct (Hhold _ _ _ _ _ _ Hp Hold Hr' Hin) as [Hcell Hne].
      split; [|done]. by eapply read_cell_kept.
Qed.

Lemma reachable_rosters_hold_resource env st :
  reachable env st → rosters_hold_resource env st.
Proof.
  induction 1 as [|st _ _|st action Hreach IH].
  - apply construct_rosters_hold_resource.
  - rewrite reset_construct. apply construct_rosters_hold_resource.
  - eapply StepResult_rosters_hold_resource; [apply step_spec| |done].
    by apply reachable_well_shaped.
Qed.

(** X4. In every reachable store, an agent listed in the roster of a
    (resource, option) bucket has that resource's id in its own grid cell
    for that option. *)
Theorem roster_members_hold_resource env st m project buckets o roster studentId :
  reachable env st →
  projects env !! m = Some project →
  studentsAssignedToProject st !! m = Some buckets →
  buckets !! o = Some roster →
  studentId ∈ roster →
  read_cell st studentId (Z.of_nat o) = Ok (Project.id project).
Proof.
  intros Hreach Hp Hb Hr Hin.
  by destruct (reachable_rosters_hold_resource env st Hreach _ _ _ _ _ _ Hp Hb Hr Hin).
Qed.



(** X6. [step] only adds: whatever the store and the action, a cell that
    was assigned keeps its value, no counter decreases, and every roster
    is a prefix of what it becomes. *)
Theorem step_only_adds env st action :
  let st' := (step env st action).1 in
  (∀ n row o cell,
      state st !! n = Some row → row !! o = Some cell → cell ≠ -1 →
      ∃ row', state st' !! n = Some row' ∧ row' !! o = Some cell)
  ∧ (∀ o counter,
      assigned st !! o = Some counter →
      ∃ counter', assigned st' !! o = Some counter' ∧ counter ≤ counter')
  ∧ (∀ m buckets o roster,
      studentsAssignedToProject st !! m = Some buckets →
      buckets !! o = Some roster →
      ∃ buckets' roster',
        studentsAssignedToProject st' !! m = Some buckets'
        ∧ buckets' !! o = Some roster'
        ∧ roster `prefix_of` roster').
Proof.
  cbn zeta.
  assert (∀ k old o v n row o' cell,
            state st !! k = Some old → old !! o = Some (-1) →
            state st !! n = Some row → row !! o' = Some cell → cell ≠ -1 →
            ∃ row', <[k := <[o := v]> old]> (state st) !! n = Some row'
                    ∧ row' !! o' = Some cell) as Hkept.
  { intros k old o v n row o' cell Hold Hopen Hrow Hcell Hne.
    destruct (decide (n = k)) as [->|Hnk].
    - assert (row = old) as -> by congruence.
      exists (<[o := v]> old). split.
      + apply list_lookup_insert_eq. by eapply lookup_lt_Some.
      + rewrite list_lookup_insert_ne; [done|]. intros ->. congruence.
    - exists row. by rewrite list_lookup_insert_ne. }
  destruct (step_spec env st action)
    as [| |o n m row buckets roster project e Hacc
        |o n m row buckets roster project Hacc
        |o n m row buckets roster project reward counter Hacc Hrew Hcounter].
  1, 2: repeat split; [intros; eauto| intros o c Hc; exists c; split; [done|lia]
                      | intros m b o r Hb Hr; by exists b, r].
  1, 2: pose proof Hacc as [_ _ Hrow [Hopen _] _ _ _ _ _ _];
    repeat split; [intros; by eapply Hkept
                  | intros o' c Hc; exists c; split; [done|lia]
                  | intros m' b o' r Hb Hr; by exists b, r].
  pose proof Hacc as [_ _ Hrow [Hopen _] _ Hbuckets Hroster _ _ _].
  repeat split.
  - intros. by eapply Hkept.
  - intros o' c Hc. cbn. destruct (decide (o' = o)) as [->|Ho].
    + exists (counter + 1).
      rewrite list_lookup_insert_eq by (by eapply lookup_lt_Some).
      split; [done|]. assert (c = counter) by congruence. lia.
    + exists c. rewrite list_lookup_insert_ne by done. split; [done|lia].
  - intros m' b o' r Hb Hr. cbn.
    destruct (decide (m' = m)) as [->|Hm].
    + assert (b = buckets) as -> by congruence.
      exists (<[o := roster ++ [action.1]]> buckets).
      rewrite list_lookup_insert_eq by (by eapply lookup_lt_Some).
      destruct (decide (o' = o)) as [->|Ho].
      * exists (roster ++ [action.1]).
        rewrite list_lookup_insert_eq by (by eapply lookup_lt_Some).
        assert (r = roster) as -> by congruence.
        repeat split. by apply prefix_app_r.
      * exists r. by rewrite list_lookup_insert_ne.
    + exists b, r. by rewrite list_lookup_insert_ne.
Qed.

End RosterDiscipline.

(** * Properties of the scoring functions *)

Section Scoring.
Context `{Externals}.

Lemma Qdiv_unit (x c : Q) : (0 < c)%Q → (0 <= x <= c)%Q → (0 <= x / c <= 1)%Q.
Proof.
  intros Hc [H0 H1]. split; [apply Qle_shift_div_l|apply Qle_shift_div_r]; lra.
Qed.

Lemma py_div_Ok a b q : py_div a b = Ok q → ¬ (b == 0)%Q ∧ q = (a / b)%Q.
Proof.
  unfold py_div. destruct (Qeq_bool b 0) eqn:Hb; [done|].
  intros [= <-]. split; [|done]. by apply Qeq_bool_neq.
Qed.

Lemma py_div_Raise a b e :
  py_div a b = Raise e → (b == 0)%Q ∧ e = ZeroDivisionError.
Proof.
  unfold py_div. destruct (Qeq_bool b 0) eqn:Hb; [|done].
  intros [= <-]. split; [|done]. by apply Qeq_bool_iff.
Qed.

Lemma py_div_zero a b : (b == 0)%Q → py_div a b = Raise ZeroDivisionError.
Proof.
  intros Hb. unfold py_div. apply Qeq_bool_iff in Hb. by rewrite Hb.
Qed.

Lemma salary_bounds (student project : Q) :
  (0 <= _salaryCalculation student project <= 1)%Q.
Proof.
  unfold _salaryCalculation.
  pose proof (Qabs_nonneg (student - project)) as Habs.
  destruct (Qle_bool student project); [lra|].
  destruct (Qle_bool _ 500) eqn:Hle; [|lra].
  apply Qle_bool_iff in Hle. apply Qdiv_unit; [lra|done].
Qed.

Lemma mark_bounds (student project : Q) :
  (0 <= _markCalculation student project <= 1)%Q.
Proof.
  unfold _markCalculation.
  pose proof (Qabs_nonneg (student - project)) as Habs.
  destruct (Qle_bool student project); [lra|].
  destruct (Qle_bool _ 1) eqn:Hle; [|lra].
  apply Qle_bool_iff in Hle. apply Qdiv_unit; [lra|done].
Qed.

Lemma subtraction_bounds (firstValue secondValue maxValue : Q) :
  (0 <= maxValue)%Q →
  (0 <= _subtractionCalculation firstValue secondValue maxValue <= maxValue)%Q.
Proof.
  intros Hmax. unfold _subtractionCalculation.
  pose proof (Qabs_nonneg (firstValue - secondValue)) as Habs.
  destruct (Qle_bool _ maxValue) eqn:Hle; [|lra].
  apply Qle_bool_iff in Hle. lra.
Qed.

Lemma subtraction_equal (value maxValue : Q) :
  (_subtractionCalculation value value maxValue == 0)%Q.
Proof.
  unfold _subtractionCalculation.
  assert (Qabs (value - value) == 0)%Q as Hzero.
  { setoid_replace (value - value)%Q with 0%Q using relation Qeq by ring.
    reflexivity. }
  destruct (Qle_bool _ maxValue); [exact Hzero|reflexivity].
Qed.

Lemma distance_bounds (studentLocation projectLocation : Location) :
  (0 <= geodesic_km studentLocation projectLocation)%Q →
  (0 <= _distanceCalculation studentLocation projectLocation <= 1)%Q.
Proof.
  intros Hd. unfold _distanceCalculation. cbn zeta.
  destruct (Qle_bool _ 50) eqn:Hle; [|lra].
  apply Qle_bool_iff in Hle. apply Qdiv_unit; lra.
Qed.

(** X7. The salary and the mark scores are always between 0 and 1. *)
Theorem salary_and_mark_scores_in_unit (student project : Q) :
  (0 <= _salaryCalculation student project <= 1)%Q
  ∧ (0 <= _markCalculation student project <= 1)%Q.
Proof.
  split.
  - apply salary_bounds.
  - apply mark_bounds.
Qed.

(** X8. For a non-negative span, [_subtractionCalculation] lies between 0
    and the span, and it is 0 when the two values are equal: the closest
    match earns nothing. *)
Theorem subtraction_score_range (firstValue secondValue maxValue : Q) :
  (0 <= maxValue)%Q →
  (0 <= _subtractionCalculation firstValue secondValue maxValue <= maxValue)%Q
  ∧ (_subtractionCalculation firstValue firstValue maxValue == 0)%Q.
Proof.
  intros Hmax. split.
  - by apply subtraction_bounds.
  - apply subtraction_equal.
Qed.

(** X9. When the geodesic distance is at most 50 km and not negative, the
    location score is [(50 - distance) / 50], between 0 and 1; beyond
    50 km it is 0. *)
Theorem distance_score_in_unit (studentLocation projectLocation : Location) :
  (0 <= geodesic_km studentLocation projectLocation)%Q →
  (0 <= _distanceCalculation studentLocation projectLocation <= 1)%Q
  ∧ ((50 < geodesic_km studentLocation projectLocation)%Q →
     _distanceCalculation studentLocation projectLocation = 0%Q).
Proof.
  intros Hd. split.
  - by apply distance_bounds.
  - intros Hfar. unfold _distanceCalculation. cbn zeta.
    destruct (Qle_bool _ 50) eqn:Hle; [|done].
    apply Qle_bool_iff in Hle. lra.
Qed.

(** One criterion keeps the accumulated punctuation within [bound] times
    the number of criteria counted. *)
Lemma criterion_within (bound imp term : Q) (acc : Q * Q) :
  (0 <= term <= bound)%Q →
  (0 <= acc.1)%Q ∧ (acc.1 <= bound * acc.2)%Q ∧ (0 <= acc.2)%Q →
  (0 <= (criterion imp term acc).1)%Q
  ∧ ((criterion imp term acc).1 <= bound * (criterion imp term acc).2)%Q
  ∧ (0 <= (criterion imp term acc).2)%Q.
Proof.
  intros Hterm Hacc. unfold criterion. destruct (Qeq_bool imp 0); [done|].
  cbn. repeat split; lra.
Qed.

(** One criterion keeps count of whether anything was active so far. *)
Lemma criterion_active (imp term : Q) (acc : Q * Q) (inactive : Prop) :
  (0 <= acc.2)%Q ∧ ((acc.2 == 0)%Q ↔ inactive) →
  (0 <= (criterion imp term acc).2)%Q
  ∧ (((criterion imp term acc).2 == 0)%Q ↔ inactive ∧ (imp == 0)%Q).
Proof.
  intros [Hpos Hiff]. unfold criterion. destruct (Qeq_bool imp 0) eqn:Himp.
  - apply Qeq_bool_iff in Himp. split; [done|]. tauto.
  - apply Qeq_bool_neq in Himp. cbn. split; [lra|]. split.
    + intros Hzero. lra.
    + tauto.
Qed.

Lemma py_div_within (bound : Q) (acc : Q * Q) score :
  (0 <= acc.1)%Q ∧ (acc.1 <= bound * acc.2)%Q ∧ (0 <= acc.2)%Q →
  py_div acc.1 acc.2 = Ok score → (0 <= score <= bound)%Q.
Proof.
  intros (H0 & Hb & Hf) Hdiv. apply py_div_Ok in Hdiv as [Hne ->].
  assert (0 < acc.2)%Q as Hpos by lra.
  split; [apply Qle_shift_div_l|apply Qle_shift_div_r]; lra.
Qed.

Lemma weight_in_unit (imp : Q) : (0 <= imp <= 5)%Q → (0 <= imp / 5 <= 1)%Q.
Proof. intros. by apply Qdiv_unit. Qed.


End Scoring.

Section Aggregators.
Context `{Externals}.

(** X11. With the four importances in [0, 5] and a non-negative geodesic
    distance, a student-side preference score that is defined lies between
    0 and 1. *)
Theorem student_score_in_unit (student : Student.t) (project : Project.t) score :
  (0 <= importance (Student.preferredLocation student) <= 5)%Q →
  (0 <= importance (Student.preferredRemote student) <= 5)%Q →
  (0 <= importance (Student.preferredMinimumSalary student) <= 5)%Q →
  (0 <= list_importance (Student.preferredTypeInternship student) <= 5)%Q →
  (0 <= geodesic_km (value (Student.preferredLocation student))
          (Project.location project))%Q →
  _studentPreferencesPunctuation student project = Ok score →
  (0 <= score <= 1)%Q.
Proof.
  intros Hloc Hrem Hsal Htype Hgeo. unfold _studentPreferencesPunctuation. cbn zeta.
  apply weight_in_unit in Hloc, Hrem, Hsal, Htype.
  apply (py_div_within 1). repeat apply criterion_within.
  - destruct (py_in_str _ _); lra.
  - pose proof (salary_bounds (value (Student.preferredMinimumSalary student))
                  (Project.minimumSalary project)).
    nra.
  - destruct (eqb _ _); lra.
  - pose proof (distance_bounds _ _ Hgeo). nra.
  - cbn. repeat split; lra.
Qed.

Lemma list_criterion_active (wanted : list (Q * string)) (have : list string)
    (acc : Q * Q) (inactive : Prop) :
  (0 <= acc.2)%Q ∧ ((acc.2 == 0)%Q ↔ inactive) →
  (0 <= (list_criterion wanted have acc).2)%Q
  ∧ (((list_criterion wanted have acc).2 == 0)%Q ↔ inactive ∧ wanted = []).
Proof.
  intros [Hpos Hiff]. unfold list_criterion, py_len.
  destruct wanted as [|entry wanted].
  - cbn. split; [done|]. tauto.
  - replace (Z.of_nat (length (entry :: wanted)) =? 0)%Z with false
      by (symmetry; apply Z.eqb_neq; cbn; lia).
    cbn. split; [lra|]. split; [intros Hzero; lra|]. by intros [_ ?].
Qed.

(** X12. The project-side aggregator fails exactly when the project's four
    importances are zero and its three weighted lists are empty, and then
    with [ZeroDivisionError]. *)
Theorem project_score_undefined_iff (student : Student.t) (project : Project.t) :
  (_projectPreferencesPunctuation student project = Raise ZeroDivisionError
   ↔ (importance (Project.preferredAgeParticipants project) == 0)%Q
     ∧ (importance (Project.preferredDegreeParticipants project) == 0)%Q
     ∧ (list_importance (Project.preferredUniversityParticipants project) == 0)%Q
     ∧ (importance (Project.preferredAverageMark project) == 0)%Q
     ∧ Project.preferredWorkExperienceParticipants project = []
     ∧ Project.preferredVolunteerExperienceParticipants project = []
     ∧ Project.preferredLanguagesParticipants project = [])
  ∧ ∀ e, _projectPreferencesPunctuation student project = Raise e →
         e = ZeroDivisionError.
Proof.
  unfold _projectPreferencesPunctuation. cbn zeta.
  match goal with |- context [py_div (?acc.1) _] => set (final := acc) end.
  assert ((0 <= final.2)%Q ∧ ((final.2 == 0)%Q
          ↔ ((((((True
                  ∧ (importance (Project.preferredAgeParticipants project) == 0)%Q)
                 ∧ (importance (Project.preferredDegreeParticipants project) == 0)%Q)
                ∧ (list_importance (Project.preferredUniversityParticipants project)
                   == 0)%Q)
               ∧ (importance (Project.preferredAverageMark project) == 0)%Q)
              ∧ Project.preferredWorkExperienceParticipants project = [])
             ∧ Project.preferredVolunteerExperienceParticipants project = [])
            ∧ Project.preferredLanguagesParticipants project = []))
    as [_ Hactive].
  { unfold final. repeat apply list_criterion_active. repeat apply criterion_active.
    cbn. split; [lra|]. split; [done|reflexivity]. }
  split.
  - split.
    + intros Hraise. apply py_div_Raise in Hraise as [Hzero _]. tauto.
    + intros Hall. apply py_div_zero. tauto.
  - intros e Hraise. by apply py_div_Raise in Hraise as [_ ->].
Qed.

(** Each matching entry of a weighted list adds between 0 and
    [1 / len(wanted)]. *)
Lemma overlap_fold_bounds (d : Q) (have : list string) (l : list (Q * string)) p :
  (0 < d)%Q →
  Forall (λ entry, (0 <= entry.1 <= 5)%Q) l →
  (p <= foldl (λ acc entry,
                 if py_in_str entry.2 have then (acc + (entry.1 / 5) / d)%Q
                 else acc) p l
     <= p + inject_Z (py_len l) / d)%Q.
Proof.
  intros Hd Hl. revert p.
  induction Hl as [|entry l Hentry Hl IH]; intros p.
  - cbn. unfold py_len. cbn.
    assert (inject_Z 0 / d == 0)%Q as -> by (unfold Qdiv; ring). lra.
  - cbn [foldl].
    assert (inject_Z (py_len (entry :: l)) / d == inject_Z (py_len l) / d + 1 / d)%Q
      as ->.
    { unfold py_len. cbn [length]. rewrite Nat2Z.inj_succ. unfold Z.succ.
      rewrite inject_Z_plus. unfold Qdiv. ring. }
    assert (0 <= (entry.1 / 5) / d <= 1 / d)%Q as Hstep.
    { apply weight_in_unit in Hentry. split.
      - apply Qle_shift_div_l; [done|]. lra.
      - apply Qle_shift_div_r; [done|].
        assert (1 / d * d == 1)%Q as -> by (field; lra). lra. }
    assert (0 <= inject_Z (py_len l) / d)%Q as Hrest.
    { apply Qle_shift_div_l; [done|]. unfold py_len.
      assert (0 <= inject_Z (Z.of_nat (length l)))%Q
        by (rewrite <- (Zle_Qle 0); lia).
      lra. }
    destruct (py_in_str entry.2 have).
    + specialize (IH (p + entry.1 / 5 / d)%Q). lra.
    + specialize (IH p). lra.
Qed.

Lemma list_criterion_within (wanted : list (Q * string)) (have : list string)
    (acc : Q * Q) :
  Forall (λ entry, (0 <= entry.1 <= 5)%Q) wanted →
  (0 <= acc.1)%Q ∧ (acc.1 <= 5 * acc.2)%Q ∧ (0 <= acc.2)%Q →
  (0 <= (list_criterion wanted have acc).1)%Q
  ∧ ((list_criterion wanted have acc).1 <= 5 * (list_criterion wanted have acc).2)%Q
  ∧ (0 <= (list_criterion wanted have acc).2)%Q.
Proof.
  intros Hwanted (H0 & Hb & Hf). unfold list_criterion.
  destruct (py_len wanted =? 0)%Z eqn:Hlen; [done|].
  apply Z.eqb_neq in Hlen.
  assert (0 < inject_Z (py_len wanted))%Q as Hd.
  { assert (0 < py_len wanted)%Z by (unfold py_len in *; lia).
    by rewrite <- (Zlt_Qlt 0). }
  pose proof (overlap_fold_bounds _ have wanted acc.1 Hd Hwanted) as Hfold.
  fold (overlap wanted have acc.1) in Hfold.
  assert (inject_Z (py_len wanted) / inject_Z (py_len wanted) == 1)%Q as Hone.
  { field. lra. }
  rewrite Hone in Hfold. cbn. repeat split; lra.
Qed.

(** X13. With the project's importances and the importances of its list
    entries in [0, 5], a project-side preference score that is defined
    lies between 0 and 5; the upper end is reached through the age term. *)
Theorem project_score_range (student : Student.t) (project : Project.t) score :
  (0 <= importance (Project.preferredAgeParticipants project) <= 5)%Q →
  (0 <= importance (Project.preferredDegreeParticipants project) <= 5)%Q →
  (0 <= list_importance (Project.preferredUniversityParticipants project) <= 5)%Q →
  (0 <= importance (Project.preferredAverageMark project) <= 5)%Q →
  Forall (λ entry, (0 <= entry.1 <= 5)%Q)
    (Project.preferredWorkExperienceParticipants project) →
  Forall (λ entry, (0 <= entry.1 <= 5)%Q)
    (Project.preferredVolunteerExperienceParticipants project) →
  Forall (λ entry, (0 <= entry.1 <= 5)%Q)
    (Project.preferredLanguagesParticipants project) →
  _projectPreferencesPunctuation student project = Ok score →
  (0 <= score <= 5)%Q.
Proof.
  intros Hage Hdeg Huni Hmark Hwork Hvol Hlang.
  unfold _projectPreferencesPunctuation. cbn zeta.
  apply weight_in_unit in Hage, Hdeg, Huni, Hmark.
  apply (py_div_within 5).
  repeat (apply list_criterion_within; [done|]).
  repeat apply criterion_within.
  - pose proof (mark_bounds (Student.averageMark student)
                  (value (Project.preferredAverageMark project))).
    nra.
  - destruct (py_in_str _ _); lra.
  - pose proof (subtraction_bounds
                  (value (Project.preferredDegreeParticipants project))
                  (Student.degree student) 2 ltac:(lra)).
    nra.
  - pose proof (subtraction_bounds
                  (value (Project.preferredAgeParticipants project))
                  (Student.age student) 5 ltac:(lra)).
    nra.
  - cbn. repeat split; lra.
Qed.

End Aggregators.

Section RewardParts.
Context `{Externals}.
Implicit Types (env : Env) (st : Store) (o n m : nat).

(** With non-negative skill importances the three accumulators of the
    skill loop stay ordered. *)
Lemma skill_loop_ordered env st project s option acc skills acc' :
  Forall (λ skill, (0 <= skill.1)%Q) skills →
  (0 <= oldSkillsPunctuation acc)%Q
  ∧ (oldSkillsPunctuation acc <= skillsPunctuation acc)%Q
  ∧ (skillsPunctuation acc <= maximumSkillsPunctuation acc)%Q →
  skill_loop env st project s option acc skills = Ok acc' →
  (0 <= oldSkillsPunctuation acc')%Q
  ∧ (oldSkillsPunctuation acc' <= skillsPunctuation acc')%Q
  ∧ (skillsPunctuation acc' <= maximumSkillsPunctuation acc')%Q.
Proof.
  intros Hskills. revert acc.
  induction Hskills as [|skill skills Hskill _ IH]; intros acc Hacc; cbn.
  { by intros [= <-]. }
  unfold skill_iteration.
  destruct (py_get (studentsAssignedToProject st) (Project.id project))
    as [buckets|]; cbn; [|done].
  destruct (py_get buckets option) as [roster|]; cbn; [|done].
  assert (0 <= skill.1 / 5)%Q as Hweight
    by (apply Qle_shift_div_l; lra).
  destruct (first_covering env skill.2 roster) as [[studentId|]|]; cbn; [| |done].
  - apply IH. cbn. destruct (studentId =? s)%Z; repeat split; lra.
  - apply IH. cbn. repeat split; lra.
Qed.

(** X14. Whatever the store, when the importances of the needed skills are
    not negative, a skill term that is defined lies between 0 and 1. *)
Theorem skill_term_in_unit env st project s option term :
  Forall (λ skill, (0 <= skill.1)%Q) (Project.preferredSkillsNeeded project) →
  skillsTerm env st project s option = Ok term →
  (0 <= term <= 1)%Q.
Proof.
  intros Hskills. unfold skillsTerm.
  destruct (skill_loop _ _ _ _ _ _ _) as [acc|] eqn:Hloop; cbn; [|done].
  apply skill_loop_ordered in Hloop as (Hold & Hcur & Hmax);
    [|done|cbn; repeat split; lra].
  destruct (py_div (skillsPunctuation acc) _) as [cur|] eqn:Hc; cbn; [|done].
  destruct (py_div (oldSkillsPunctuation acc) _) as [old|] eqn:Ho; cbn; [|done].
  intros [= <-].
  apply py_div_Ok in Hc as [Hne ->]. apply py_div_Ok in Ho as [_ ->].
  assert (0 < maximumSkillsPunctuation acc)%Q as Hpos by lra.
  assert (skillsPunctuation acc / maximumSkillsPunctuation acc
          - oldSkillsPunctuation acc / maximumSkillsPunctuation acc
          == (skillsPunctuation acc - oldSkillsPunctuation acc)
             / maximumSkillsPunctuation acc)%Q as -> by (field; lra).
  split; [apply Qle_shift_div_l|apply Qle_shift_div_r]; lra.
Qed.

(** X15. In every reachable store the reward of an accepted step is
    [ALPHA * studentScore + GAMMA * projectScore]: the skill term adds
    nothing, because the roster is scanned before the agent joins it. *)
Theorem accepted_reward_formula env st action st' out :
  reachable env st →
  step env st action = (st', Ok out) → accepted out →
  ∃ student project studentScore projectScore,
    py_get (students env) action.1 = Ok student
    ∧ py_get (projects env) action.2 = Ok project
    ∧ _studentPreferencesPunctuation student project = Ok studentScore
    ∧ _projectPreferencesPunctuation student project = Ok projectScore
    ∧ (reward out == 5 * studentScore + 3 * projectScore)%Q.
Proof.
  intros Hreach Hstep Hacc.
  destruct (accepted_reward_has_no_skill_term _ _ _ _ _ Hreach Hstep Hacc)
    as (student & project & a & b & Hs & Hp & Ha & Hb & Hrew).
  exists student, project, a, b. repeat split; try done.
Qed.

(** X16. What a returning [step] reports is read off the store it leaves:
    the done flag is [_isDone] of that store; an accepted step returns the
    plain grid as observation, with or without [withImage]; a step that
    was not accepted leaves the store alone and returns reward 0 with the
    observation [withImage] selects. *)
Theorem outcome_reports_store env st action st' out :
  step env st action = (st', Ok out) →
  done out = _isDone env st'
  ∧ (accepted out → observation out = Grid (state st'))
  ∧ (¬ accepted out →
     st' = st ∧ reward out = 0%Q ∧ observe env st = Ok (observation out)).
Proof.
  intros Hstep. apply step_spec_eq in Hstep.
  inversion Hstep as [| Hst Hres | | |o n m row buckets roster project r counter Hacc];
    subst.
  - destruct (observe env st') as [obs|] eqn:Hobs; cbn in Hres; [|done].
    injection Hres as <-. unfold accepted. cbn.
    repeat split; try done.
  - unfold accepted. cbn. split; [done|]. split; [done|]. intros Hno.
    by destruct Hno.
Qed.

(** X17. When the acceptance test passes at the agent's first open slot,
    the reward is defined and the counter of that option exists, [step]
    commits the assignment: the id goes into that slot, the counter of the
    option grows by one, the agent is appended to the roster, and the
    reward is returned with the new grid. *)
Theorem acceptance_commits env st action o n m row buckets roster project
    r counter :
  Acceptance env st action o n m row buckets roster project →
  _rewardCalculation env (slot_written st n o row (Project.id project))
    action.1 action.2 (Z.of_nat o) = Ok r →
  assigned st !! o = Some counter →
  ∃ out,
    step env st action
    = (mkStore (<[n := <[o := Project.id project]> row]> (state st))
               (<[o := counter + 1]> (assigned st))
               (<[m := <[o := roster ++ [action.1]]> buckets]>
                  (studentsAssignedToProject st)),
       Ok out)
    ∧ accepted out
    ∧ reward out = r.
Proof.
  intros Hacc Hreward Hcounter.
  rewrite (step_accepts _ _ _ _ _ _ _ _ _ _ Hacc).
  rewrite (assign_unfold _ _ _ _ _ _ _ _ _ _ Hacc). cbn zeta.
  rewrite Hreward, Hcounter. eexists. split; [reflexivity|]. by split.
Qed.

(** X18. A freshly constructed (or reset) environment is already done
    exactly when it has no student or no option. *)
Theorem fresh_done_iff env :
  _isDone env (construct env) = true
  ↔ students env = [] ∨ numberOptions env ≤ 0.
Proof.
  unfold _isDone, construct, init, fresh_assigned, range, py_len. cbn. split.
  - intros Hdone.
    destruct (students env) as [|student rest]; [by left|right].
    destruct (Z.to_nat (numberOptions env)) as [|k] eqn:Hk; [lia|].
    cbn in Hdone. done.
  - intros [-> | Hnone].
    + induction (seq 0 _) as [|k l IH]; [done|]. cbn. done.
    + by replace (Z.to_nat (numberOptions env)) with 0%nat by lia.
Qed.

End RewardParts.

Section Terminal.
Context `{Externals}.
Implicit Types (env : Env) (st : Store) (o n m : nat).

Lemma isDone_counters env st :
  _isDone env st = true
  ↔ ∀ o counter, assigned st !! o = Some counter →
                 counter = py_len (students env).
Proof.
  unfold _isDone. rewrite forallb_forall. split.
  - intros Hall o counter Hc. apply Z.eqb_eq, Hall.
    apply list_elem_of_In. by eapply list_elem_of_lookup_2.
  - intros Hall counter Hin. apply Z.eqb_eq.
    apply list_elem_of_In, list_elem_of_lookup in Hin as [o Ho].
    by eapply Hall.
Qed.

Lemma filled_le_length (grid : list (list Z)) o :
  (filled grid o ≤ length grid)%nat.
Proof.
  unfold filled. induction grid as [|row grid IH]; cbn; [lia|].
  destruct (slot_filled o row); lia.
Qed.

Lemma filled_full (grid : list (list Z)) o :
  filled grid o = length grid
  ↔ ∀ n row, grid !! n = Some row → slot_filled o row = true.
Proof.
  induction grid as [|row grid IH].
  - split; [|done]. intros _ n row. by rewrite lookup_nil.
  - pose proof (filled_le_length grid o) as Hle. unfold filled in *.
    cbn [sum_list_with length]. split.
    + intros Hsum. destruct (slot_filled o row) eqn:Hrow; [|lia].
      intros [|n] row'; cbn; [by intros [= <-]|].
      apply IH. lia.
    + intros Hall. rewrite (Hall 0%nat row eq_refl).
      assert (sum_list_with (λ row, if slot_filled o row then 1%nat else 0%nat) grid
              = length grid) as ->; [|lia].
      apply IH. intros n row' Hrow'. by apply (Hall (S n)).
Qed.

(** In a store where every call returned, a done flag means no cell of
    any row is unassigned. *)
Lemma returning_done_cells env st n row o cell :
  reachable_returning env st → _isDone env st = true →
  state st !! n = Some row → row !! o = Some cell → cell ≠ -1.
Proof.
  intros Hreach Hdone Hrow Hcell.
  pose proof (reachable_well_shaped _ _ (returning_reachable _ _ Hreach)) as Hshape.
  assert (o < nOptions env)%nat as Ho.
  { rewrite <- (Forall_lookup_1 _ _ _ _ (shape_rows _ _ Hshape) Hrow).
    by eapply lookup_lt_Some. }
  destruct (returning_counts_agree env st o Hreach Ho) as [Hcounter _].
  pose proof (proj1 (isDone_counters env st) Hdone o _ Hcounter) as Hfilled.
  assert (filled (state st) o = length (state st)) as Hfull.
  { rewrite (shape_state _ _ Hshape). unfold py_len in Hfilled. lia. }
  pose proof (proj1 (filled_full _ _) Hfull n row Hrow) as Hslot.
  unfold slot_filled in Hslot. rewrite Hcell in Hslot.
  apply negb_true_iff in Hslot. by apply Z.eqb_neq.
Qed.

(** X19. In a store reached by calls that all returned, [_isDone] is true
    exactly when no cell of the grid is unassigned: every agent has every
    option filled. *)
Theorem done_iff_grid_full env st :
  reachable_returning env st →
  (_isDone env st = true
   ↔ ∀ n row o cell, state st !! n = Some row → row !! o = Some cell → cell ≠ -1).
Proof.
  intros Hreach. split.
  - intros Hdone n row o cell. by apply (returning_done_cells env).
  - intros Hfull. apply isDone_counters. intros o counter Hcounter.
    pose proof (reachable_well_shaped _ _ (returning_reachable _ _ Hreach)) as Hshape.
    assert (o < nOptions env)%nat as Ho.
    { rewrite <- (shape_assigned _ _ Hshape). by eapply lookup_lt_Some. }
    destruct (returning_counts_agree env st o Hreach Ho) as [Hagree _].
    assert (filled (state st) o = length (state st)) as Hall.
    { apply filled_full. intros n row Hrow. unfold slot_filled.
      destruct (lookup_lt_is_Some_2 row o) as [cell Hcell].
      { by rewrite (Forall_lookup_1 _ _ _ _ (shape_rows _ _ Hshape) Hrow). }
      rewrite Hcell. apply negb_true_iff, Z.eqb_neq. by eapply Hfull. }
    rewrite Hagree in Hcounter. injection Hcounter as <-.
    rewrite Hall, (shape_state _ _ Hshape). done.
Qed.

(** X20. A done store is absorbing for [step]: in a store reached by
    calls that all returned, once [_isDone] is true no action is accepted
    and every [step] call leaves the store as it is. *)
Theorem done_store_is_absorbing env st action :
  reachable_returning env st → _isDone env st = true →
  (step env st action).1 = st
  ∧ ∀ out, (step env st action).2 = Ok out → ¬ accepted out.
Proof.
  intros Hreach Hdone.
  destruct (step_spec env st action)
    as [| |o n m row buckets roster project e Hacc
        |o n m row buckets roster project Hacc
        |o n m row buckets roster project reward counter Hacc].
  - split; [done|]. by intros out.
  - split; [done|]. intros out. apply nothing_done_not_accepted.
  - destruct Hacc as [_ _ Hrow [Hopen _] _ _ _ _ _ _].
    by destruct (returning_done_cells env st n row o (-1) Hreach Hdone Hrow Hopen).
  - destruct Hacc as [_ _ Hrow [Hopen _] _ _ _ _ _ _].
    by destruct (returning_done_cells env st n row o (-1) Hreach Hdone Hrow Hopen).
  - destruct Hacc as [_ _ Hrow [Hopen _] _ _ _ _ _ _].
    by destruct (returning_done_cells env st n row o (-1) Hreach Hdone Hrow Hopen).
Qed.

End Terminal.

(** * Properties of the aggregate scores *)

Section AggregateScores.
Context `{Externals}.
Implicit Types (env : Env) (st : Store) (o n m : nat).

Lemma py_get_fmap {A B} (f : A → B) (l : list A) i :
  py_get (f <$> l) i =
    match py_get l i with Ok x => Ok (f x) | Raise e => Raise e end.
Proof.
  unfold py_get. rewrite length_fmap.
  destruct (py_index (length l) i) as [n|]; [|done].
  rewrite list_lookup_fmap. by destruct (l !! n).
Qed.

(** Index [-1] and index [len - 1] denote the same element. *)
Lemma py_get_last {A} (l : list A) : py_get l (py_len l - 1) = py_get l (-1).
Proof.
  unfold py_get. destruct l as [|x l]; [done|].
  assert (py_index (length (x :: l)) (py_len (x :: l) - 1) = Some (length l)) as ->.
  { unfold py_len. cbn [length].
    replace (Z.of_nat (S (length l)) - 1) with (Z.of_nat (length l)) by lia.
    rewrite py_index_nat. by rewrite decide_True by lia. }
  assert (py_index (length (x :: l)) (-1) = Some (length l)) as ->; [|done].
  unfold py_index. cbn [length].
  destruct (Z.leb_spec (- Z.of_nat (S (length l))) (-1)); [|lia].
  cbn. f_equal. lia.
Qed.

Lemma student_options_total_last env st st' student s options total :
  state st' = fmap (M := list)
                (fmap (M := list)
                   (λ cell, if cell =? -1 then py_len (projects env) - 1 else cell))
                (state st) →
  student_options_total env st' student s options total
  = student_options_total env st student s options total.
Proof.
  intros Hstate. revert total.
  induction options as [|option rest IH]; intros total; [done|].
  cbn [student_options_total]. rewrite Hstate, py_get_fmap.
  destruct (py_get (state st) s) as [row|]; cbn; [|done].
  rewrite py_get_fmap.
  destruct (py_get row option) as [cell|]; cbn; [|done].
  assert (py_get (projects env)
            (if cell =? -1 then py_len (projects env) - 1 else cell)
          = py_get (projects env) cell) as ->.
  { destruct (cell =? -1) eqn:Hcell; [|done].
    apply Z.eqb_eq in Hcell as ->. apply py_get_last. }
  destruct (py_get (projects env) cell) as [project|]; cbn; [|done].
  destruct (_studentPreferencesPunctuation student project); cbn; [|done].
  apply IH.
Qed.

Lemma students_total_last env st studentNumbers total :
  students_total env (unassigned_as_last env st) studentNumbers total
  = students_total env st studentNumbers total.
Proof.
  revert total. induction studentNumbers as [|s rest IH]; intros total; [done|].
  cbn [students_total].
  destruct (py_get (students env) s) as [student|]; cbn; [|done].
  rewrite (student_options_total_last env st (unassigned_as_last env st)) by done.
  destruct (student_options_total _ _ _ _ _ _); cbn; [|done].
  destruct (py_div _ _); cbn; [|done]. apply IH.
Qed.

Lemma coverage_loop_rosters env st st' project option acc skills :
  studentsAssignedToProject st' = studentsAssignedToProject st →
  coverage_loop env st' project option acc skills
  = coverage_loop env st project option acc skills.
Proof.
  intros Hsame. revert acc.
  induction skills as [|skill rest IH]; intros acc; [done|].
  cbn [coverage_loop]. rewrite Hsame.
  destruct (py_get _ (Project.id project)) as [buckets|]; cbn; [|done].
  destruct (py_get buckets option) as [roster|]; cbn; [|done].
  destruct (first_covering _ _ _); cbn; [|done]. apply IH.
Qed.

Lemma project_options_total_rosters env st st' project projectNumber options acc :
  studentsAssignedToProject st' = studentsAssignedToProject st →
  project_options_total env st' project projectNumber options acc
  = project_options_total env st project projectNumber options acc.
Proof.
  intros Hsame. revert acc.
  induction options as [|option rest IH]; intros acc; [done|].
  cbn [project_options_total]. rewrite Hsame.
  destruct (py_get _ projectNumber) as [buckets|]; cbn; [|done].
  destruct (py_get buckets option) as [roster|]; cbn; [|done].
  destruct (roster_preferences _ _ _ _); cbn; [|done].
  rewrite (coverage_loop_rosters env st st') by done.
  destruct (coverage_loop _ _ _ _ _ _); cbn; [|done].
  destruct (py_div _ _); cbn; [|done]. apply IH.
Qed.

Lemma projects_total_rosters env st st' projectNumbers acc :
  studentsAssignedToProject st' = studentsAssignedToProject st →
  projects_total env st' projectNumbers acc
  = projects_total env st projectNumbers acc.
Proof.
  intros Hsame. revert acc.
  induction projectNumbers as [|projectNumber rest IH]; intros acc; [done|].
  cbn [projects_total].
  destruct (py_get (projects env) projectNumber) as [project|]; cbn; [|done].
  rewrite (project_options_total_rosters env st st') by done.
  destruct (project_options_total _ _ _ _ _ _); cbn; [|done].
  destruct (py_div _ _); cbn; [|done].
  destruct (py_div _ _); cbn; [|done]. apply IH.
Qed.

(** X21. [stepScores] scores an unassigned slot against the last project:
    the sentinel [-1] indexes [projects] from the end, so the scores of a
    store equal those of the store whose open cells hold
    [len(projects) - 1]. *)
Theorem scores_count_open_slots_as_last_project env st :
  stepScores env st = stepScores env (unassigned_as_last env st).
Proof.
  unfold stepScores.
  rewrite students_total_last.
  by rewrite (projects_total_rosters env st (unassigned_as_last env st)).
Qed.

(** X22. For one (project, option) bucket, the skill coverage that
    [stepScores] accumulates is the current coverage that
    [_rewardCalculation] accumulates: from the same starting totals the
    two loops return the same covered and maximum totals, and they fail on
    the same inputs with the same exception. *)
Theorem scores_coverage_is_reward_coverage env st project s option cur old maxi
    skills :
  match skill_loop env st project s option (mkSkillAcc cur old maxi) skills with
  | Ok acc =>
      coverage_loop env st project option (cur, maxi) skills
      = Ok (skillsPunctuation acc, maximumSkillsPunctuation acc)
  | Raise e =>
      coverage_loop env st project option (cur, maxi) skills = Raise e
  end.
Proof.
  revert cur old maxi.
  induction skills as [|skill rest IH]; intros cur old maxi; [done|].
  cbn [skill_loop coverage_loop]. unfold skill_iteration.
  destruct (py_get _ (Project.id project)) as [buckets|]; cbn; [|done].
  destruct (py_get buckets option) as [roster|]; cbn; [|done].
  destruct (first_covering _ _ _) as [[studentId|]|]; cbn; [| |done].
  - apply IH.
  - apply IH.
Qed.

Lemma range_cons z : 0 < z → ∃ rest, range z = 0 :: rest.
Proof.
  intros Hz. unfold range.
  destruct (Z.to_nat z) as [|k] eqn:Hk; [lia|]. cbn. eauto.
Qed.

Lemma elem_of_range z m : (m < Z.to_nat z)%nat → Z.of_nat m ∈ range z.
Proof.
  intros Hm. unfold range. apply list_elem_of_fmap. exists m. split; [done|].
  apply elem_of_seq. lia.
Qed.

(** With no option every division by [numberOptions] fails. *)
Lemma stepScores_no_options env st :
  numberOptions env = 0 → stepScores env st = Raise ZeroDivisionError.
Proof.
  intros Hzero. unfold stepScores.
  assert (range (numberOptions env) = []) as Hrange by (by rewrite Hzero).
  destruct (students env) as [|student rest] eqn:Hstudents.
  - cbn. destruct (projects env) as [|project others] eqn:Hprojects; [done|].
    destruct (range_cons (py_len (project :: others))) as [tl ->];
      [unfold py_len; cbn; lia|].
    cbn [projects_total]. rewrite Hprojects. cbn. rewrite Hrange, Hzero. done.
  - destruct (range_cons (py_len (student :: rest))) as [tl ->];
      [unfold py_len; cbn; lia|].
    cbn [students_total]. rewrite Hstudents. cbn. rewrite Hrange, Hzero. done.
Qed.

(** X23. [stepScores] returns scores only for a populated environment:
    with no student, no project or [numberOptions = 0] it raises instead
    (and with [numberOptions = 0] the exception is [ZeroDivisionError],
    whatever the store). *)
Theorem scores_need_population env st :
  (∀ scores, stepScores env st = Ok scores →
     students env ≠ [] ∧ projects env ≠ [] ∧ numberOptions env ≠ 0)
  ∧ (numberOptions env = 0 → stepScores env st = Raise ZeroDivisionError).
Proof.
  split; [|apply stepScores_no_options].
  intros scores Hscores. repeat split.
  - intros Hnone. unfold stepScores in Hscores. rewrite Hnone in Hscores.
    cbn in Hscores.
    destruct (projects_total _ _ _ _); cbn in Hscores; done.
  - intros Hnone. unfold stepScores in Hscores. rewrite Hnone in Hscores.
    destruct (students_total _ _ _ _); cbn in Hscores; [|done].
    destruct (py_div _ _); cbn in Hscores; done.
  - intros Hzero. by rewrite stepScores_no_options in Hscores.
Qed.

Lemma projects_total_Ok_each env st projectNumbers acc totals projectNumber :
  projects_total env st projectNumbers acc = Ok totals →
  projectNumber ∈ projectNumbers →
  ∃ project sums,
    py_get (projects env) projectNumber = Ok project
    ∧ project_options_total env st project projectNumber
        (range (numberOptions env)) (0%Q, 0%Q) = Ok sums.
Proof.
  revert acc. induction projectNumbers as [|pn rest IH]; intros acc Htotal Hin.
  { by apply elem_of_nil in Hin. }
  cbn [projects_total] in Htotal.
  destruct (py_get (projects env) pn) as [project|] eqn:Hp; cbn in Htotal; [|done].
  destruct (project_options_total _ _ _ _ _ _) as [sums|] eqn:Hsums;
    cbn in Htotal; [|done].
  destruct (py_div sums.1 _) as [preference|]; [|done].
  destruct (py_div sums.2 _) as [coverage|]; [|done].
  cbn in Htotal.
  apply elem_of_cons in Hin as [->|Hin]; [eauto|].
  by eapply IH.
Qed.

(** X24. With at least one option, [stepScores] raises whenever some
    project needs no skill: the coverage of that project's first bucket is
    [0.0 / 0.0]. *)
Theorem scores_need_skills env st m project scores :
  projects env !! m = Some project →
  Project.preferredSkillsNeeded project = [] →
  0 < numberOptions env →
  stepScores env st ≠ Ok scores.
Proof.
  intros Hproject Hskills Hoptions Hscores. unfold stepScores in Hscores.
  destruct (students_total _ _ _ _); cbn in Hscores; [|done].
  destruct (projects_total _ _ _ _) as [totals|] eqn:Htotals; cbn in Hscores; [|done].
  destruct (projects_total_Ok_each _ _ _ _ _ (Z.of_nat m) Htotals)
    as (project' & sums & Hp & Hsums).
  { apply elem_of_range. unfold py_len. rewrite Nat2Z.id.
    by eapply lookup_lt_Some. }
  rewrite py_get_nat, Hproject in Hp. injection Hp as <-.
  destruct (range_cons _ Hoptions) as [rest Hrange].
  rewrite Hrange in Hsums. cbn [project_options_total] in Hsums.
  destruct (py_get _ (Z.of_nat m)) as [buckets|]; cbn in Hsums; [|done].
  destruct (py_get buckets 0) as [roster|]; cbn in Hsums; [|done].
  destruct (roster_preferences _ _ _ _); cbn in Hsums; [|done].
  rewrite Hskills in Hsums. cbn in Hsums. done.
Qed.

End AggregateScores.

(** * Evaluations on the sample data *)

#[local] Existing Instance sample_externals.

(** C1.  One student owning ["python"], one project needing it with
    importance 5, one option.  The step is accepted and the student becomes
    the only member of the roster, hence the only one covering the needed
    skill; both preference scores are 1.  The reward is [5 + 3 + 2 * 0]:
    the skill term, computed on the store as [_rewardCalculation] sees it,
    is 0, although on the roster that includes the student it is 1. *)
Theorem skill_term_ignores_new_agent :
  ∃ st' out,
    step skill_env (construct skill_env) (0, 0) = (st', Ok out)
    ∧ studentsAssignedToProject st' = [[[0]]]
    ∧ (reward out == 8)%Q
    ∧ (∃ seen,
         skillsTerm skill_env (slot_written (construct skill_env) 0 0 [-1] 0)
           (sample_project [(5%Q, "python")]) 0 0 = Ok seen
         ∧ (seen == 0)%Q)
    ∧ (∃ joined,
         skillsTerm skill_env st' (sample_project [(5%Q, "python")]) 0 0 = Ok joined
         ∧ (joined == 1)%Q).
Proof.
  eexists _, _. split; [lazy; reflexivity|].
  split; [done|]. split; [done|].
  split; eexists; (split; [lazy; reflexivity|done]).
Qed.

(** C3.  A 25-year-old student and a project preferring participants aged
    20 with importance 5: the age term is [(5 / 5) * |20 - 25| = 5], the
    project score is 5 and the accepted step returns the reward
    [5 * 1 + 3 * 5 + 2 * 0 = 20]. *)
Theorem reward_exceeds_ten :
  ∃ st' out,
    step age_env (construct age_env) (0, 0) = (st', Ok out)
    ∧ accepted out
    ∧ (reward out == 20)%Q
    ∧ ¬ (reward out <= 10)%Q.
Proof.
  eexists _, _. split; [lazy; reflexivity|].
  split; [done|]. split; [done|]. by compute.
Qed.

(** C2, refuted as stated.  A student with no active preference: the
    student-side aggregator divides by zero, the call aborts, and the grid
    cell of the student already holds the project's id. *)
Lemma zero_division_after_grid_write :
  _studentPreferencesPunctuation indifferent_student
    (sample_project [(5%Q, "python")]) = Raise ZeroDivisionError
  ∧ step indifferent_env (construct indifferent_env) (0, 0)
    = (mkStore [[0]] [0] [[[]]], Raise ZeroDivisionError)
  ∧ state (construct indifferent_env) = [[-1]]
  ∧ (step indifferent_env (construct indifferent_env) (0, 0)).1
    ≠ construct indifferent_env.
Proof. repeat split; done. Qed.

(** C4, refuted as stated.  The agent index [-1] is outside [0, 1), yet
    the action is carried out on the last student: grid, counter and
    roster all change. *)
Lemma negative_index_is_carried_out :
  ¬ (0 ≤ -1 < py_len (students skill_env))
  ∧ (step skill_env (construct skill_env) (-1, 0)).1 = mkStore [[0]] [1] [[[-1]]]
  ∧ (step skill_env (construct skill_env) (-1, 0)).1 ≠ construct skill_env.
Proof. repeat split; [lia|done]. Qed.

(** C7, refuted as stated.  A project that needs no skill: the acceptance
    test passes, both aggregators give a score, and the call raises
    [ZeroDivisionError] instead of returning a reward. *)
Lemma empty_skill_needs_raise :
  Project.preferredSkillsNeeded (sample_project []) = []
  ∧ acceptable no_skills_env (construct no_skills_env) 0 0 0 = Ok true
  ∧ (step no_skills_env (construct no_skills_env) (0, 0)).2
    = Raise ZeroDivisionError
  ∧ ∀ out, (step no_skills_env (construct no_skills_env) (0, 0)).2 ≠ Ok out.
Proof. repeat split; done. Qed.

(** C10, refuted as stated.  After the in-range action [(0, 0)] aborted on
    a zero denominator, one grid cell of option 0 is assigned while the
    counter and the rosters of option 0 still say none. *)
Lemma aborted_step_breaks_counters :
  let st := run indifferent_env (construct indifferent_env) [(0, 0)] in
  reachable indifferent_env st
  ∧ (0 < nOptions indifferent_env)%nat
  ∧ filled (state st) 0 = 1%nat
  ∧ assigned st !! 0%nat = Some 0
  ∧ enrolled (studentsAssignedToProject st) 0 = 0%nat
  ∧ ¬ counts_agree st 0.
Proof.
  cbn zeta. split; [apply reachable_step, reachable_construct|].
  split; [compute; lia|]. repeat split; try done.
  intros [Hcounter _]. vm_compute in Hcounter. done.
Qed.

(** ** Instances of the general theorems *)

Lemma pair_taken_reachable : reachable pair_env pair_taken.
Proof. apply reachable_step, reachable_construct. Defined.

Lemma pair_taken_returning : reachable_returning pair_env pair_taken.
Proof.
  eapply (returning_step pair_env (construct pair_env) (0, 0)).
  - apply returning_construct.
  - lazy. reflexivity.
Defined.

Lemma pair_first_open_slot :
  FirstOpenSlot pair_env pair_taken (1, 0) 0 1 0 [-1] [[0]] [0]
    (sample_project [(5%Q, "python")]).
Proof.
  split; try done. split; [done|]. intros o' cell Ho'. lia.
Defined.

(** The second student asks for the project whose only place is taken. *)
Lemma capacity_law_witness :
  Forall (λ project, 0 ≤ Project.nParticipants project) (projects pair_env)
  ∧ reachable pair_env pair_taken
  ∧ within_capacity pair_env pair_taken
  ∧ step pair_env pair_taken (1, 0) = nothing_done pair_env pair_taken.
Proof.
  assert (Forall (λ project, 0 ≤ Project.nParticipants project) (projects pair_env))
    as Hcap by (repeat constructor; cbn; lia).
  split; [done|]. split; [apply pair_taken_reachable|].
  destruct (capacity_law pair_env pair_taken Hcap pair_taken_reachable)
    as [Hwithin Hreject].
  split; [done|].
  apply (Hreject (1, 0) 0%nat 1%nat 0%nat [-1] [[0]] [0]
           (sample_project [(5%Q, "python")]) pair_first_open_slot).
  unfold py_len. cbn. lia.
Defined.

Lemma two_option_first_open_slot :
  FirstOpenSlot two_option_env two_option_taken (0, 0) 1 0 0 [0; -1] [[0]; []] []
    (sample_project [(5%Q, "python")]).
Proof.
  split; try done. split; [done|].
  intros [|o'] cell Ho'; [by intros [= <-]|lia].
Defined.

(** The second student is refused the full bucket; the first student
    repeating the accepted action is refused as well; and a student who
    holds the project as first option is refused it as second option,
    although that bucket is empty. *)
Lemma first_open_slot_rejection_witness :
  step pair_env pair_taken (1, 0)
  = (pair_taken,
     Ok {| observation := Grid (state pair_taken); reward := 0;
           done := false; info := NothingDone |})
  ∧ step pair_env pair_taken (0, 0)
    = (pair_taken,
       Ok {| observation := Grid (state pair_taken); reward := 0;
             done := false; info := NothingDone |})
  ∧ step two_option_env two_option_taken (0, 0)
    = (two_option_taken,
       Ok {| observation := Grid [[0; -1]]; reward := 0;
             done := false; info := NothingDone |}).
Proof.
  destruct (first_open_slot_rejection pair_env) as [Hfirst Hrepeat].
  destruct (first_open_slot_rejection two_option_env) as [Hheld _].
  split; [|split].
  - apply (Hfirst pair_taken (1, 0) 0%nat 1%nat 0%nat [-1] [[0]] [0]
             (sample_project [(5%Q, "python")]) pair_first_open_slot).
    left. unfold py_len. cbn. lia.
  - eapply (Hrepeat (construct pair_env) (0, 0) pair_taken).
    + apply reachable_construct.
    + lazy. reflexivity.
    + done.
  - apply (Hheld two_option_taken (0, 0) 1%nat 0%nat 0%nat [0; -1] [[0]; []] []
             (sample_project [(5%Q, "python")]) two_option_first_open_slot).
    right. apply list_elem_of_here.
Defined.

Lemma counters_track_grid_and_rosters_witness :
  (assigned pair_taken !! 0%nat = Some (Z.of_nat (filled (state pair_taken) 0))
   ∧ filled (state pair_taken) 0
     = enrolled (studentsAssignedToProject pair_taken) 0)
  ∧ filled (state pair_taken) 0 = S (filled (state (construct pair_env)) 0).
Proof.
  destruct (counters_track_grid_and_rosters pair_env) as [Hagree Hbump]. split.
  - apply (Hagree pair_taken 0%nat pair_taken_returning). compute. lia.
  - assert (∃ out, step pair_env (construct pair_env) (0, 0) = (pair_taken, Ok out)
                   ∧ accepted out) as (out & Hstep & Hacc)
      by (eexists; split; [lazy; reflexivity|done]).
    destruct (Hbump (construct pair_env) (0, 0) pair_taken out
                (returning_construct pair_env) Hstep Hacc)
      as (o & Ho & _ & Hcounts).
    assert (o = 0%nat) as -> by (unfold nOptions in Ho; cbn in Ho; lia).
    destruct (Hcounts 0%nat) as (Hfilled & _). cbn zeta in Hfilled.
    rewrite Hfilled. case_decide; [lia|done].
Defined.

(** Agent index 1 where there is a single student. *)
Lemma unindexable_action_leaves_store_witness :
  reachable skill_env (construct skill_env)
  ∧ py_len (students skill_env) ≤ 1
  ∧ (step skill_env (construct skill_env) (1, 0)).1 = construct skill_env.
Proof.
  split; [apply reachable_construct|]. split; [unfold py_len; cbn; lia|].
  apply (unindexable_action_leaves_store skill_env (construct skill_env) (1, 0)).
  - apply reachable_construct.
  - right. left. unfold py_len. cbn. lia.
Defined.

Lemma zero_division_frame_witness :
  step indifferent_env (construct indifferent_env) (0, 0)
  = (mkStore [[0]] [0] [[[]]], Raise ZeroDivisionError)
  ∧ assigned (mkStore [[0]] [0] [[[]]]) = assigned (construct indifferent_env)
  ∧ studentsAssignedToProject (mkStore [[0]] [0] [[[]]])
    = studentsAssignedToProject (construct indifferent_env).
Proof.
  assert (step indifferent_env (construct indifferent_env) (0, 0)
          = (mkStore [[0]] [0] [[[]]], Raise ZeroDivisionError)) as Hstep
    by reflexivity.
  split; [done|].
  destruct (zero_division_frame indifferent_env (construct indifferent_env) (0, 0)
              (mkStore [[0]] [0] [[[]]]) Hstep) as (Hassigned & Hrosters & _).
  by split.
Defined.

Lemma no_skills_acceptance :
  Acceptance no_skills_env (construct no_skills_env) (0, 0) 0 0 0 [-1] [[]] []
    (sample_project []).
Proof.
  split; try done.
  - unfold nOptions. cbn. lia.
  - split; [done|]. intros o' cell Ho'. lia.
Defined.

Lemma empty_skill_needs_abort_witness :
  Acceptance no_skills_env (construct no_skills_env) (0, 0) 0 0 0 [-1] [[]] []
    (sample_project [])
  ∧ Project.preferredSkillsNeeded (sample_project []) = []
  ∧ (step no_skills_env (construct no_skills_env) (0, 0)).2
    = Raise ZeroDivisionError.
Proof.
  split; [apply no_skills_acceptance|]. split; [done|].
  eapply (empty_skill_needs_abort no_skills_env (construct no_skills_env) (0, 0)
            0 0 0 [-1] [[]] [] (sample_project []) (sample_student ["python"])).
  - apply no_skills_acceptance.
  - reflexivity.
  - reflexivity.
  - lazy. reflexivity.
  - lazy. reflexivity.
Defined.

(** ** Instances of the further properties *)

Lemma two_option_full_reachable : reachable two_option_env two_option_full.
Proof.
  apply (reachable_step two_option_env two_option_taken (0, 1)).
  apply (reachable_step two_option_env (construct two_option_env) (0, 0)).
  apply reachable_construct.
Defined.

Lemma two_option_full_returning : reachable_returning two_option_env two_option_full.
Proof.
  eapply (returning_step two_option_env two_option_taken (0, 1)).
  - eapply (returning_step two_option_env (construct two_option_env) (0, 0)).
    + apply returning_construct.
    + lazy. reflexivity.
  - lazy. reflexivity.
Defined.

Lemma rows_fill_left_to_right_witness :
  reachable two_option_env two_option_full
  ∧ state two_option_full !! 0%nat = Some [0; 1]
  ∧ ∃ cell', [0; 1] !! 0%nat = Some cell' ∧ cell' ≠ -1.
Proof.
  split; [apply two_option_full_reachable|]. split; [done|].
  apply (rows_fill_left_to_right two_option_env two_option_full 0 [0; 1] 1 0 1
           two_option_full_reachable); [done|done|lia|lia].
Defined.

Lemma no_resource_twice_in_row_witness :
  reachable two_option_env two_option_full
  ∧ state two_option_full !! 0%nat = Some [0; 1]
  ∧ 1%nat = 1%nat.
Proof.
  split; [apply two_option_full_reachable|]. split; [done|].
  apply (no_resource_twice_in_row two_option_env two_option_full 0 [0; 1] 1 1 1
           two_option_full_reachable); [done|done|done|lia].
Defined.

Lemma dimensions_never_change_witness :
  reachable pair_env pair_taken
  ∧ length (state pair_taken) = length (students pair_env)
  ∧ length (assigned pair_taken) = Z.to_nat (numberOptions pair_env).
Proof.
  split; [apply pair_taken_reachable|].
  destruct (dimensions_never_change pair_env pair_taken pair_taken_reachable)
    as (Hstate & _ & Hassigned & _).
  by split.
Defined.

Lemma roster_members_hold_resource_witness :
  reachable pair_env pair_taken
  ∧ studentsAssignedToProject pair_taken !! 0%nat = Some [[0]]
  ∧ read_cell pair_taken 0 0 = Ok 0.
Proof.
  split; [apply pair_taken_reachable|]. split; [done|].
  apply (roster_members_hold_resource pair_env pair_taken 0
           (sample_project [(5%Q, "python")]) [[0]] 0 [0] 0
           pair_taken_reachable); [done|done|done|].
  apply list_elem_of_here.
Defined.


(** The second option of the only student: the cell of the first option
    keeps its value, and the roster of the first project keeps its member. *)
Lemma step_only_adds_witness :
  (∃ row', state two_option_full !! 0%nat = Some row' ∧ row' !! 0%nat = Some 0)
  ∧ (∃ counter', assigned two_option_full !! 1%nat = Some counter' ∧ 0 ≤ counter')
  ∧ ∃ buckets' roster',
      studentsAssignedToProject two_option_full !! 0%nat = Some buckets'
      ∧ buckets' !! 0%nat = Some roster'
      ∧ [0] `prefix_of` roster'.
Proof.
  destruct (step_only_adds two_option_env two_option_taken (0, 1))
    as (Hcells & Hcounters & Hrosters).
  split; [|split].
  - apply (Hcells 0%nat [0; -1] 0%nat 0); [done|done|lia].
  - by apply (Hcounters 1%nat 0).
  - by apply (Hrosters 0%nat [[0]; []] 0%nat [0]).
Defined.

Lemma subtraction_score_range_witness :
  (0 <= 5)%Q
  ∧ (0 <= _subtractionCalculation 20 25 5 <= 5)%Q
  ∧ (_subtractionCalculation 20 20 5 == 0)%Q.
Proof.
  assert (0 <= 5)%Q as Hmax by lra.
  split; [done|]. apply (subtraction_score_range 20 25 5 Hmax).
Defined.

Lemma distance_score_in_unit_witness :
  (0 <= geodesic_km (0, 0)%Q (0, 0)%Q)%Q
  ∧ (0 <= _distanceCalculation (0, 0)%Q (0, 0)%Q <= 1)%Q.
Proof.
  assert (0 <= geodesic_km (0, 0)%Q (0, 0)%Q)%Q as Hgeo by (cbn; lra).
  split; [done|].
  by destruct (distance_score_in_unit (0, 0)%Q (0, 0)%Q Hgeo).
Defined.


Lemma student_score_in_unit_witness :
  _studentPreferencesPunctuation (sample_student ["python"])
    (sample_project [(5%Q, "python")]) = Ok (5 # 5)
  ∧ (0 <= 5 # 5 <= 1)%Q.
Proof.
  split; [reflexivity|].
  apply (student_score_in_unit (sample_student ["python"])
           (sample_project [(5%Q, "python")]) (5 # 5));
    try (cbn; lra). reflexivity.
Defined.

Lemma project_score_undefined_iff_witness :
  _projectPreferencesPunctuation (sample_student ["python"]) indifferent_project
  = Raise ZeroDivisionError.
Proof.
  destruct (project_score_undefined_iff (sample_student ["python"])
              indifferent_project) as [Hiff _].
  apply Hiff. repeat split; reflexivity.
Defined.

(** The age term alone carries the project score to 5. *)
Lemma project_score_range_witness :
  _projectPreferencesPunctuation (sample_student ["python"]) age_project
  = Ok (25 # 5)
  ∧ (0 <= 25 # 5 <= 5)%Q.
Proof.
  split; [reflexivity|].
  apply (project_score_range (sample_student ["python"]) age_project (25 # 5));
    try (cbn; lra); by constructor.
Defined.

Lemma skill_term_in_unit_witness :
  skillsTerm skill_env pair_taken (sample_project [(5%Q, "python")]) 0 0
  = Ok (125 # 125)
  ∧ (0 <= 125 # 125 <= 1)%Q.
Proof.
  split; [reflexivity|].
  apply (skill_term_in_unit skill_env pair_taken
           (sample_project [(5%Q, "python")]) 0 0 (125 # 125)); [|reflexivity].
  repeat constructor. cbn. lra.
Defined.

Lemma accepted_reward_formula_witness :
  ∃ out,
    step skill_env (construct skill_env) (0, 0)
    = ((step skill_env (construct skill_env) (0, 0)).1, Ok out)
    ∧ (reward out == 8)%Q.
Proof.
  assert (∃ out, step skill_env (construct skill_env) (0, 0)
                 = ((step skill_env (construct skill_env) (0, 0)).1, Ok out)
                 ∧ accepted out) as (out & Hstep & Hacc)
    by (eexists; split; [lazy; reflexivity|done]).
  exists out. split; [done|].
  destruct (accepted_reward_formula skill_env (construct skill_env) (0, 0) _ out
              (reachable_construct skill_env) Hstep Hacc)
    as (student & project & a & b & Hs & Hp & Ha & Hb & Hrew).
  injection Hs as <-. injection Hp as <-.
  injection Ha as <-. injection Hb as <-. rewrite Hrew. reflexivity.
Defined.

Lemma outcome_reports_store_witness :
  ∃ out,
    step pair_env (construct pair_env) (0, 0) = (pair_taken, Ok out)
    ∧ done out = _isDone pair_env pair_taken
    ∧ observation out = Grid (state pair_taken).
Proof.
  assert (∃ out, step pair_env (construct pair_env) (0, 0) = (pair_taken, Ok out)
                 ∧ accepted out) as (out & Hstep & Hacc)
    by (eexists; split; [lazy; reflexivity|done]).
  exists out. split; [done|].
  destruct (outcome_reports_store pair_env (construct pair_env) (0, 0)
              pair_taken out Hstep) as (Hdone & Hgrid & _).
  split; [done|]. by apply Hgrid.
Defined.

Lemma skill_env_acceptance :
  Acceptance skill_env (construct skill_env) (0, 0) 0 0 0 [-1] [[]] []
    (sample_project [(5%Q, "python")]).
Proof.
  split; try done.
  - unfold nOptions. cbn. lia.
  - split; [done|]. intros o' cell Ho'. lia.
Defined.

Lemma acceptance_commits_witness :
  ∃ out,
    step skill_env (construct skill_env) (0, 0)
    = (mkStore [[0]] [1] [[[0]]], Ok out)
    ∧ accepted out
    ∧ reward out = (5000 # 625)%Q.
Proof.
  apply (acceptance_commits skill_env (construct skill_env) (0, 0) 0 0 0 [-1]
           [[]] [] (sample_project [(5%Q, "python")]) (5000 # 625) 0
           skill_env_acceptance); reflexivity.
Defined.

Lemma fresh_done_iff_witness :
  _isDone no_option_env (construct no_option_env) = true.
Proof.
  apply (fresh_done_iff no_option_env). right. cbn. lia.
Defined.

Lemma done_iff_grid_full_witness :
  reachable_returning two_option_env two_option_full
  ∧ _isDone two_option_env two_option_full = true
  ∧ ∀ n row o cell,
      state two_option_full !! n = Some row → row !! o = Some cell → cell ≠ -1.
Proof.
  split; [apply two_option_full_returning|]. split; [done|].
  by apply (done_iff_grid_full two_option_env two_option_full
              two_option_full_returning).
Defined.

Lemma done_store_is_absorbing_witness :
  reachable_returning two_option_env two_option_full
  ∧ _isDone two_option_env two_option_full = true
  ∧ (step two_option_env two_option_full (0, 1)).1 = two_option_full.
Proof.
  split; [apply two_option_full_returning|]. split; [done|].
  by destruct (done_store_is_absorbing two_option_env two_option_full (0, 1)
                 two_option_full_returning eq_refl).
Defined.

Lemma scores_need_population_witness :
  numberOptions no_option_env = 0
  ∧ stepScores no_option_env (construct no_option_env) = Raise ZeroDivisionError.
Proof.
  split; [done|].
  destruct (scores_need_population no_option_env (construct no_option_env))
    as [_ Hzero].
  by apply Hzero.
Defined.

Lemma scores_need_skills_witness :
  projects no_skills_env !! 0%nat = Some (sample_project [])
  ∧ 0 < numberOptions no_skills_env
  ∧ ∀ scores, stepScores no_skills_env (construct no_skills_env) ≠ Ok scores.
Proof.
  split; [done|]. split; [cbn; lia|]. intros scores.
  apply (scores_need_skills no_skills_env (construct no_skills_env) 0
           (sample_project []) scores);
    [done|done|cbn; lia].
Defined.
